(** * Baremetal IPMI power manager ([ironic/manager/ipmi.py])

    A shallow embedding of the IPMI power driver and the proofs of the
    properties its specification states.  The driver shells out to
    [ipmitool]; everything outside the Python process (the commands that
    are run, the file system) is part of an explicit machine state, and
    the methods of the driver are computations in a small state and
    exception monad over that machine. *)

From Stdlib Require Import ZArith Lia Ascii String List.
From stdpp Require Import base tactics option list strings gmap stringmap pretty.

Local Open Scope Z_scope.
Local Open Scope string_scope.
Local Open Scope list_scope.

(** ** Strings *)

(** The line feed that ends every line [ipmitool] prints. *)
Definition LF : string := String "010"%char EmptyString.

(** [s.split(sep)] for a one-character separator: every occurrence of the
    separator cuts, empty pieces are kept. *)
Fixpoint split_acc (sep : ascii) (cur : string) (s : string) : list string :=
  match s with
  | EmptyString => [cur]
  | String c s' =>
      if Ascii.eqb c sep then cur :: split_acc sep EmptyString s'
      else split_acc sep (cur +:+ String c EmptyString) s'
  end.

Definition split (sep : ascii) (s : string) : list string :=
  split_acc sep EmptyString s.

(** [sep.join(l)]. *)
Fixpoint join (sep : string) (l : list string) : string :=
  match l with
  | [] => EmptyString
  | [x] => x
  | x :: l' => x +:+ sep +:+ join sep l'
  end.

(** [s.replace(c, by)] for a one-character pattern. *)
Fixpoint replace (c : ascii) (by_ : string) (s : string) : string :=
  match s with
  | EmptyString => EmptyString
  | String d s' =>
      if Ascii.eqb d c then by_ +:+ replace c by_ s'
      else String d (replace c by_ s')
  end.

Definition ends_with_slash (s : string) : bool :=
  match rev (list_ascii_of_string s) with
  | c :: _ => Ascii.eqb c "/"
  | [] => false
  end.

Module os_path.
(** [os.path.join(a, b)] on POSIX, two components. *)
Definition join (a b : string) : string :=
  match b with
  | String "/" _ => b
  | _ =>
      if String.eqb a EmptyString || ends_with_slash a then a +:+ b
      else a +:+ "/" +:+ b
  end.
End os_path.

(** *** [int(s)]

    Python's [int] on a string: surrounding white space is dropped, one
    sign is allowed, and what is left must be a non-empty run of decimal
    digits; anything else is a [ValueError], here [None]. *)

Definition is_space (c : ascii) : bool :=
  let n := nat_of_ascii c in
  (Nat.eqb n 32 || (Nat.leb 9 n && Nat.leb n 13))%bool.

Fixpoint lstrip (l : list ascii) : list ascii :=
  match l with
  | c :: l' => if is_space c then lstrip l' else l
  | [] => []
  end.

Definition strip (l : list ascii) : list ascii :=
  rev (lstrip (rev (lstrip l))).

Definition digit_of (c : ascii) : option Z :=
  let n := nat_of_ascii c in
  if (Nat.leb 48 n && Nat.leb n 57)%bool then Some (Z.of_nat n - 48) else None.

Fixpoint digits_acc (acc : Z) (l : list ascii) : option Z :=
  match l with
  | [] => Some acc
  | c :: l' =>
      match digit_of c with
      | Some d => digits_acc (10 * acc + d) l'
      | None => None
      end
  end.

Definition digits (l : list ascii) : option Z :=
  match l with
  | [] => None
  | _ => digits_acc 0 l
  end.

Definition int (s : string) : option Z :=
  match strip (list_ascii_of_string s) with
  | "-"%char :: l => Z.opp <$> digits l
  | "+"%char :: l => digits l
  | l => digits l
  end.

(** Truth value of an integer or [None], as [if x:] tests it. *)
Definition truthy (x : option Z) : bool :=
  match x with
  | Some z => negb (Z.eqb z 0)
  | None => false
  end.

(** ** The machine *)

Module states.
(** Modelled from the spec: [ironic.common.states], the power states a
    controller records ("PowerState: one of UNKNOWN, ACTIVE, OFF/DELETED,
    ERROR"); the unknown state is the [None] the constructor stores. *)
Inductive t := ACTIVE | DELETED | ERROR.
End states.

Global Instance states_eq_dec : EqDecision states.t.
Proof. solve_decision. Defined.

(** Exceptions.  All of them derive from [Exception], [LoopingCallDone]
    included. *)
Inductive exn :=
| LoopingCallDone
| InvalidParameterValue (msg : string)
| ProcessExecutionError
| IOError
| OSError
| TypeError
| UnboundLocalError.

(** The options registered with [CONF]. *)
Record Conf := mkConf {
  terminal : string;
  terminal_cert_dir : option string;
  terminal_pid_dir : string;
  ipmi_power_retry : Z;
}.

(** A node is a database row: each column is there and may hold [None]. *)
Record Node := mkNode {
  id : option string;
  pm_address : option string;
  pm_user : option string;
  pm_password : option string;
  terminal_port : option Z;
}.

(** The controller object. *)
Record IPMI := mkIPMI {
  state : option states.t;
  retries : option Z;
  node_id : string;
  address : string;
  user : string;
  password : string;
  port : option Z;
}.

Record file := mkFile { f_mode : Z; f_data : string }.

(** Keyword arguments of [utils.execute]. *)
Record exec_kw := mkKw {
  attempts : nat;
  run_as_root : bool;
  check_exit_code : list Z;
  shell : bool;
}.

(** What one call of [utils.execute] comes back with. *)
Inductive exec_result :=
| ExecOk (out err : string)
| ExecFail.

Inductive level := DEBUG | WARNING | EXCEPTION.

Inductive file_op := Mkstemp | Fchmod | FWrite | Unlink.

(** What the driver does to the outside, in the order it does it.  A file
    event carries the permission bits the file has once the operation is
    done ([None] when it is gone).  [EvCallback] marks one invocation of
    the polling callback by the looping call. *)
Inductive event :=
| EvExecute (args : list string) (kw : exec_kw)
| EvLog (lvl : level) (msg : string)
| EvFile (op : file_op) (path : string) (mode : option Z)
| EvCallback.

(** The machine: the object [self], the configuration, the file system,
    the commands' answers ([env k args] is what the [k]-th execution
    returns when it runs [args]) and the trace of what happened so far,
    oldest event first. *)
Record machine := mkMachine {
  self : IPMI;
  CONF : Conf;
  getuid : Z;
  getgid : Z;
  env : nat -> list string -> exec_result;
  nexec : nat;
  fs : gmap string file;
  trace : list event;
}.

Definition set_self (o : IPMI) (m : machine) : machine :=
  mkMachine o (CONF m) (getuid m) (getgid m) (env m) (nexec m) (fs m) (trace m).
Definition set_fs (f : gmap string file) (m : machine) : machine :=
  mkMachine (self m) (CONF m) (getuid m) (getgid m) (env m) (nexec m) f (trace m).
Definition emit (e : event) (m : machine) : machine :=
  mkMachine (self m) (CONF m) (getuid m) (getgid m) (env m) (nexec m) (fs m)
            (trace m ++ [e]).
Definition tick (m : machine) : machine :=
  mkMachine (self m) (CONF m) (getuid m) (getgid m) (env m) (S (nexec m)) (fs m)
            (trace m).

Definition set_state (s : option states.t) (o : IPMI) : IPMI :=
  mkIPMI s (retries o) (node_id o) (address o) (user o) (password o) (port o).
Definition set_retries (r : option Z) (o : IPMI) : IPMI :=
  mkIPMI (state o) r (node_id o) (address o) (user o) (password o) (port o).

(** ** The monad *)

Inductive result (A : Type) :=
| Return (a : A)
| Raise (e : exn)
| OutOfFuel.
Arguments Return {A} a.
Arguments Raise {A} e.
Arguments OutOfFuel {A}.

Definition M (A : Type) : Type := machine -> result A * machine.

Definition ret {A} (a : A) : M A := fun m => (Return a, m).
Definition raise {A} (e : exn) : M A := fun m => (Raise e, m).
Definition bind {A B} (c : M A) (k : A -> M B) : M B :=
  fun m =>
    match c m with
    | (Return a, m') => k a m'
    | (Raise e, m') => (Raise e, m')
    | (OutOfFuel, m') => (OutOfFuel, m')
    end.

Declare Scope py_scope.
Delimit Scope py_scope with py.
Notation "x <- c ;; k" := (bind c (fun x => k))
  (at level 100, c at next level, k at level 200, right associativity) : py_scope.
Notation "c ;; k" := (bind c (fun _ => k))
  (at level 100, k at level 200, right associativity) : py_scope.
Local Open Scope py_scope.

Definition gets {A} (f : machine -> A) : M A := fun m => (Return (f m), m).
Definition modify (f : machine -> machine) : M unit := fun m => (Return tt, f m).

(** [try: c except Exception: h]. *)
Definition try_except {A} (c : M A) (h : M A) : M A :=
  fun m =>
    match c m with
    | (Raise _, m') => h m'
    | r => r
    end.

(** [try: c finally: f]: [f] runs on the way out, whichever way that is;
    an exception of [f] replaces the outcome of [c]. *)
Definition try_finally {A} (c : M A) (f : M unit) : M A :=
  fun m =>
    match c m with
    | (OutOfFuel, m') => (OutOfFuel, m')
    | (r, m') =>
        match f m' with
        | (Return _, m'') => (r, m'')
        | (Raise e, m'') => (Raise e, m'')
        | (OutOfFuel, m'') => (OutOfFuel, m'')
        end
    end.

(** Reading a local variable: [UnboundLocalError] when nothing has been
    assigned to it. *)
Definition local {A} (x : option A) : M A :=
  match x with
  | Some a => ret a
  | None => raise UnboundLocalError
  end.

(** [try: x = c; k finally: f], where the [finally] clause reads the local
    variable [x]: when [c] raises, nothing has been assigned to [x] by the
    time [f] runs. *)
Definition try_finally_local {A B} (c : M A) (k : A -> M B)
  (f : option A -> M unit) : M B :=
  fun m =>
    match c m with
    | (Return a, m') => try_finally (k a) (f (Some a)) m'
    | (Raise e, m') => try_finally (raise e) (f None) m'
    | (OutOfFuel, m') => (OutOfFuel, m')
    end.

Module LOG.
Definition debug (msg : string) : M unit := modify (emit (EvLog DEBUG msg)).
Definition warn (msg : string) : M unit := modify (emit (EvLog WARNING msg)).
Definition warning (msg : string) : M unit := warn msg.
Definition exception (msg : string) : M unit := modify (emit (EvLog EXCEPTION msg)).
End LOG.

(** ** The file system *)

Definition stat_mode (path : string) (m : machine) : option Z :=
  f_mode <$> fs m !! path.

Definition file_event (op : file_op) (path : string) : M unit :=
  modify (fun m => emit (EvFile op path (stat_mode path m)) m).

(** The file system may refuse to create a file, to change its mode or to
    take what is written to it (no space left, no permission, an I/O
    error): [d op path] tells whether it refuses operation [op] on
    [path]. *)
Definition disk : Type := file_op -> string -> bool.

(** The file system that refuses nothing. *)
Definition reliable : disk := fun _ _ => false.

Module stat.
Definition S_IRUSR : Z := 256.
Definition S_IWUSR : Z := 128.
End stat.

Module tempfile.
(** A path that names no file yet. *)
Definition fresh_path (f : gmap string file) : string :=
  fresh_string "/tmp/tmp" f.

(** [tempfile.mkstemp()]: a file that did not exist, created empty,
    readable and writable by its owner only (mode [0600], 384); when the
    file system refuses, [OSError] and no file.  The open descriptor is
    represented by the path. *)
Definition mkstemp (d : disk) : M string :=
  path <- gets (fun m => fresh_path (fs m)) ;;
  if d Mkstemp path then raise OSError
  else
    modify (fun m => set_fs (<[path := mkFile 384 EmptyString]> (fs m)) m) ;;
    file_event Mkstemp path ;;
    ret path.
End tempfile.

Module os.
(** [os.fchmod(fd, mode)]; when the file system refuses, [OSError] and the
    file as it was. *)
Definition fchmod (d : disk) (fd : string) (mode : Z) : M unit :=
  if d Fchmod fd then raise OSError
  else
    modify (fun m => set_fs (alter (fun f => mkFile mode (f_data f)) fd (fs m)) m) ;;
    file_event Fchmod fd.

(** [with os.fdopen(fd, "w") as f: f.write(data)]; when the file system
    refuses (at the write, or at the flush on leaving the [with] block),
    [IOError], and the file stays as it was: there, and without the
    data. *)
Definition fdopen_write (d : disk) (fd : string) (data : string) : M unit :=
  if d FWrite fd then raise IOError
  else
    modify (fun m => set_fs (alter (fun f => mkFile (f_mode f) data) fd (fs m)) m) ;;
    file_event FWrite fd.

Definition path_exists (path : string) : M bool :=
  gets (fun m => bool_decide (is_Some (fs m !! path))).

(** [with open(path, 'r') as f: f.read()]. *)
Definition read (path : string) : M string :=
  f <- gets (fun m => fs m !! path) ;;
  match f with
  | Some f => ret (f_data f)
  | None => raise IOError
  end.
End os.

Module utils.
(** Modelled from the spec: [ironic.common.utils.execute], the command
    runner ("executes an argument vector, retries transient failures
    internally, returns captured output or fails with an execution
    error").  One call is one event and one answer of the environment;
    the retries and the exit codes accepted are the runner's business. *)
Definition execute (args : list string) (kw : exec_kw) : M (string * string) :=
  r <- gets (fun m => env m (nexec m) args) ;;
  modify (fun m => tick (emit (EvExecute args kw) m)) ;;
  match r with
  | ExecOk out err => ret (out, err)
  | ExecFail => raise ProcessExecutionError
  end.

(** Modelled from the spec: [ironic.common.utils.delete_if_exists]
    ("Deletion is idempotent (deleting a non-existent path is not an
    error)"). *)
Definition delete_if_exists (path : string) : M unit :=
  modify (fun m => set_fs (delete path (fs m)) m) ;;
  file_event Unlink path.
End utils.

(** ** The module-level functions *)

Definition _get_console_pid_path (node_id : string) : M string :=
  dir <- gets (fun m => terminal_pid_dir (CONF m)) ;;
  let name := node_id +:+ ".pid" in
  let path := os_path.join dir name in
  ret path.

Definition _get_console_pid (node_id : string) : M (option Z) :=
  pid_path <- _get_console_pid_path node_id ;;
  ex <- os.path_exists pid_path ;;
  if ex : bool then
    pid_str <- os.read pid_path ;;
    match int pid_str with
    | Some pid => ret (Some pid)
    | None =>
        LOG.warn ("pid file " +:+ pid_path +:+ " does not contain any pid") ;;
        ret None
    end
  else ret None.

(** ** The functions that make a secret file

    [_make_password_file] and its two callers, [IPMI._exec_ipmitool] and
    [IPMI.start_console], on a file system [d] that may refuse. *)

Definition ipmitool_kw : exec_kw :=
  {| attempts := 3; run_as_root := false; check_exit_code := [0]; shell := false |}.

(** ['...'] around [arg], its own quotes escaped. *)
Definition shell_quote (arg : string) : string :=
  "'" +:+ replace "'" "'\''" arg +:+ "'".

Definition nonempty (s : option string) : bool :=
  match s with
  | Some s => negb (String.eqb s EmptyString)
  | None => false
  end.

Definition shell_kw : exec_kw :=
  {| attempts := 1; run_as_root := false; check_exit_code := [0]; shell := true |}.

Module on_disk.
Definition _make_password_file (d : disk) (password : string) : M string :=
  path <- tempfile.mkstemp d ;;
  os.fchmod d path (Z.lor stat.S_IRUSR stat.S_IWUSR) ;;
  os.fdopen_write d path password ;;
  ret path.

(** The secret file is made before the [try]: an error of
    [_make_password_file] leaves at once, past the [finally] clause. *)
Definition _exec_ipmitool (d : disk) (command : string) : M (string * string) :=
  o <- gets self ;;
  let args := ["ipmitool"; "-I"; "lanplus"; "-H"; address o; "-U"; user o; "-f"] in
  pwfile <- _make_password_file d (password o) ;;
  try_finally
    (let args := args ++ [pwfile] in
     let args := args ++ split " " command in
     out_err <- utils.execute args ipmitool_kw ;;
     LOG.debug ("ipmitool stdout: '" +:+ fst out_err +:+ "', stderr: '"
                +:+ snd out_err +:+ "'") ;;
     ret out_err)
    (utils.delete_if_exists pwfile).

(** Here the secret file is made inside the [try], and the [finally]
    clause reads [pwfile], which is bound only once [_make_password_file]
    has returned. *)
Definition start_console (d : disk) : M unit :=
  o <- gets self ;;
  if negb (truthy (port o)) then ret tt
  else
    conf <- gets CONF ;;
    let args := [terminal conf] in
    let args :=
      if nonempty (terminal_cert_dir conf)
      then args ++ ["-c"; default EmptyString (terminal_cert_dir conf)]
      else args ++ ["-t"] in
    let args := args ++ ["-p"] in
    let args := args ++ [pretty (default 0 (port o))] in
    pid_path <- _get_console_pid_path (node_id o) ;;
    let args := args ++ ["--background=" +:+ pid_path] in
    let args := args ++ ["-s"] in
    try_finally_local
      (_make_password_file d (password o))
      (fun pwfile =>
         uid <- gets getuid ;;
         gid <- gets getgid ;;
         let ipmi_args :=
           "/:" +:+ pretty uid +:+ ":" +:+ pretty gid +:+ ":HOME:ipmitool -H "
           +:+ address o +:+ " -I lanplus -U " +:+ user o +:+ " -f " +:+ pwfile
           +:+ " sol activate" in
         let args := args ++ [ipmi_args] in
         let x := map shell_quote args in
         let x := x ++ ["</dev/null"] in
         let x := x ++ [">/dev/null"] in
         let x := x ++ ["2>&1"] in
         utils.execute [join " " x] shell_kw ;;
         ret tt)
      (fun pwfile => p <- local pwfile ;; utils.delete_if_exists p).
End on_disk.

(** The same three functions on a file system that refuses nothing.  This
    is the file system the power operations and the console are followed
    on below; what becomes of the secret file when the file system does
    refuse is told of the functions of [on_disk]. *)
Definition _make_password_file (password : string) : M string :=
  on_disk._make_password_file reliable password.

Definition _exec_ipmitool (command : string) : M (string * string) :=
  on_disk._exec_ipmitool reliable command.

Definition start_console : M unit := on_disk.start_console reliable.

(** ** The looping call *)

Module loopingcall.
(** Modelled from the spec: [ironic.openstack.common.loopingcall], the
    periodic poller ("runs a callback at a fixed interval until the
    callback signals completion; supports synchronous blocking wait for
    completion").  [FixedIntervalLoopingCall fuel f] is
    [FixedIntervalLoopingCall(f).start(interval).wait()]: the callback is
    invoked again and again; raising [LoopingCallDone] ends the loop, any
    other exception ends it too and reaches the waiting caller.  The
    Python loop has no bound of its own; [fuel] bounds the number of
    invocations the model follows, and running out of it is the outcome
    [OutOfFuel]. *)
Fixpoint FixedIntervalLoopingCall (fuel : nat) (f : M unit) : M unit :=
  match fuel with
  | O => fun m => (OutOfFuel, m)
  | S fuel' =>
      fun m =>
        match f (emit EvCallback m) with
        | (Return _, m') => FixedIntervalLoopingCall fuel' f m'
        | (Raise LoopingCallDone, m') => (Return tt, m')
        | (Raise e, m') => (Raise e, m')
        | (OutOfFuel, m') => (OutOfFuel, m')
        end
  end.
End loopingcall.

(** ** The class [IPMI] *)

Definition __init__ (node : Node) : result IPMI :=
  match id node with
  | None => Raise (InvalidParameterValue "Node id not supplied to IPMI")
  | Some node_id =>
  match pm_address node with
  | None => Raise (InvalidParameterValue "Address not supplied to IPMI")
  | Some address =>
  match pm_user node with
  | None => Raise (InvalidParameterValue "User not supplied to IPMI")
  | Some user =>
  match pm_password node with
  | None => Raise (InvalidParameterValue "Password not supplied to IPMI")
  | Some password =>
      Return (mkIPMI None None node_id address user password (terminal_port node))
  end end end end.

Definition _is_power (state : string) : M bool :=
  out_err <- _exec_ipmitool "power status" ;;
  ret (String.eqb (fst out_err) ("Chassis Power is " +:+ state +:+ LF)).

Definition record_state (s : states.t) : M unit :=
  modify (fun m => set_self (set_state (Some s) (self m)) m).

(** [self.retries > CONF.ipmi_power_retry].  The counter is an integer by
    the time the callbacks run; [None], which the constructor leaves
    there, is below every integer. *)
Definition retries_exceeded : M bool :=
  r <- gets (fun m => retries (self m)) ;;
  n <- gets (fun m => ipmi_power_retry (CONF m)) ;;
  ret (match r with Some r => Z.ltb n r | None => false end).

(** [self.retries += 1]; [None] cannot be added to. *)
Definition incr_retries : M unit :=
  r <- gets (fun m => retries (self m)) ;;
  match r with
  | Some r => modify (fun m => set_self (set_retries (Some (r + 1)) (self m)) m)
  | None => raise TypeError
  end.

Definition _wait_for_power_on : M unit :=
  on <- _is_power "on" ;;
  if on : bool then
    record_state states.ACTIVE ;; raise LoopingCallDone
  else
    over <- retries_exceeded ;;
    if over : bool then
      record_state states.ERROR ;; raise LoopingCallDone
    else
      try_except
        (incr_retries ;; _exec_ipmitool "power on" ;; ret tt)
        (LOG.exception "IPMI power on failed").

Definition _power_on (fuel : nat) : M unit :=
  modify (fun m => set_self (set_retries (Some 0) (self m)) m) ;;
  loopingcall.FixedIntervalLoopingCall fuel _wait_for_power_on.

Definition _wait_for_power_off : M unit :=
  off <- _is_power "off" ;;
  if off : bool then
    record_state states.DELETED ;; raise LoopingCallDone
  else
    over <- retries_exceeded ;;
    if over : bool then
      record_state states.ERROR ;; raise LoopingCallDone
    else
      try_except
        (incr_retries ;; _exec_ipmitool "power off" ;; ret tt)
        (LOG.exception "IPMI power off failed").

Definition _power_off (fuel : nat) : M unit :=
  modify (fun m => set_self (set_retries (Some 0) (self m)) m) ;;
  loopingcall.FixedIntervalLoopingCall fuel _wait_for_power_off.

Definition _set_pxe_for_next_boot : M unit :=
  try_except
    (_exec_ipmitool "chassis bootdev pxe" ;; ret tt)
    (LOG.exception "IPMI set next bootdev failed").

Definition already_active_msg (address : string) : string :=
  "Activate node called, but node " +:+ address +:+ " is already active".

Definition activate_node (fuel : nat) : M (option states.t) :=
  on <- _is_power "on" ;;
  o <- gets self ;;
  (if on && bool_decide (state o = Some states.ACTIVE)
   then LOG.warning (already_active_msg (address o))
   else ret tt) ;;
  _set_pxe_for_next_boot ;;
  _power_on fuel ;;
  gets (fun m => state (self m)).

Definition reboot_node (fuel : nat) : M (option states.t) :=
  _power_off fuel ;;
  _set_pxe_for_next_boot ;;
  _power_on fuel ;;
  gets (fun m => state (self m)).

Definition deactivate_node (fuel : nat) : M (option states.t) :=
  _power_off fuel ;;
  gets (fun m => state (self m)).

Definition is_power_on : M bool := _is_power "on".

Definition kill_kw : exec_kw :=
  {| attempts := 1; run_as_root := true; check_exit_code := [0; 99]; shell := false |}.

Definition stop_console : M unit :=
  o <- gets self ;;
  console_pid <- _get_console_pid (node_id o) ;;
  (if truthy console_pid
   then utils.execute ["kill"; "-TERM"; pretty (default 0 console_pid)] kill_kw ;;
        ret tt
   else ret tt) ;;
  pid_path <- _get_console_pid_path (node_id o) ;;
  utils.delete_if_exists pid_path.

(** ** The two polling loops, side by side

    [_power_on] and [_power_off] are the same loop up to the state waited
    for, the state recorded and the command issued. *)

Inductive power_op := PowerOn | PowerOff.

Definition expected_of (op : power_op) : string :=
  match op with PowerOn => "on" | PowerOff => "off" end.
Definition command_of (op : power_op) : string :=
  match op with PowerOn => "power on" | PowerOff => "power off" end.
Definition success_of (op : power_op) : states.t :=
  match op with PowerOn => states.ACTIVE | PowerOff => states.DELETED end.
Definition failure_msg (op : power_op) : string :=
  match op with
  | PowerOn => "IPMI power on failed"
  | PowerOff => "IPMI power off failed"
  end.
Definition callback_of (op : power_op) : M unit :=
  match op with PowerOn => _wait_for_power_on | PowerOff => _wait_for_power_off end.
Definition run_power (op : power_op) : nat -> M unit :=
  match op with PowerOn => _power_on | PowerOff => _power_off end.

(** The three public power operations. *)
Inductive operation := Activate | Reboot | Deactivate.

Definition run_operation (o : operation) : nat -> M (option states.t) :=
  match o with
  | Activate => activate_node
  | Reboot => reboot_node
  | Deactivate => deactivate_node
  end.

(** The state an operation is after. *)
Definition goal_of (o : operation) : states.t :=
  match o with
  | Activate | Reboot => states.ACTIVE
  | Deactivate => states.DELETED
  end.

(** ** Concrete machines *)

Definition conf0 : Conf :=
  {| terminal := "shellinaboxd"; terminal_cert_dir := None;
     terminal_pid_dir := "/var/lib/ironic/baremetal/console";
     ipmi_power_retry := 5 |}.

Definition ipmi0 : IPMI :=
  mkIPMI None None "7" "10.0.0.5" "admin" "s3cret" (Some 4200).

Definition machine0 (e : nat -> list string -> exec_result) : machine :=
  mkMachine ipmi0 conf0 1000 1000 e 0 ∅ [].

Definition always_off : nat -> list string -> exec_result :=
  fun _ _ => ExecOk ("Chassis Power is off" +:+ LF) EmptyString.

Definition always_on : nat -> list string -> exec_result :=
  fun _ _ => ExecOk ("Chassis Power is on" +:+ LF) EmptyString.

(** [machine0] with a node that is on and recorded as [ACTIVE]. *)
Definition machine_active : machine :=
  mkMachine (set_state (Some states.ACTIVE) ipmi0) conf0 1000 1000 always_on 0 ∅ [].

Definition always_fails : nat -> list string -> exec_result :=
  fun _ _ => ExecFail.

(** A node record whose management address is the empty string. *)
Definition node_empty_address : Node :=
  mkNode (Some "7") (Some EmptyString) (Some "admin") (Some "s3cret") None.

(** [machine0] with a pid record for the console of the node. *)
Definition machine_pid (content : string)
  (e : nat -> list string -> exec_result) : machine :=
  mkMachine ipmi0 conf0 1000 1000 e 0
    {[ "/var/lib/ironic/baremetal/console/7.pid" := mkFile 420 content ]} [].

(** The node is off and comes up once it has been told to: the status
    query answers "off" until the fourth command has run. *)
Definition comes_up : nat -> list string -> exec_result :=
  fun k _ =>
    if Nat.ltb k 4 then ExecOk ("Chassis Power is off" +:+ LF) EmptyString
    else ExecOk ("Chassis Power is on" +:+ LF) EmptyString.

(** [machine0] with a retry budget of [n]. *)
Definition machine_budget (n : Z)
  (e : nat -> list string -> exec_result) : machine :=
  mkMachine ipmi0 (mkConf "shellinaboxd" None "/var/lib/ironic/baremetal/console" n)
            1000 1000 e 0 ∅ [].

(** The events a run adds to the trace. *)
Definition events_of {A} (c : M A) (m : machine) : list event :=
  drop (length (trace m)) (trace (snd (c m))).

(** The first command fails; from then on the node reports it is off. *)
Definition fails_once : nat -> list string -> exec_result :=
  fun k _ =>
    match k with
    | O => ExecFail
    | S _ => ExecOk ("Chassis Power is off" +:+ LF) EmptyString
    end.


(** ** What one [ipmitool] invocation does *)

(** Owner read and write, [0600]. *)
Definition owner_rw : Z := 384.

(** The path [mkstemp] hands out on machine [m]. *)
Definition pwfile (m : machine) : string := tempfile.fresh_path (fs m).

Definition ipmitool_args (o : IPMI) (pw command : string) : list string :=
  ["ipmitool"; "-I"; "lanplus"; "-H"; address o; "-U"; user o; "-f"; pw]
  ++ split " " command.

Definition secret_events (p : string) : list event :=
  [EvFile Mkstemp p (Some owner_rw); EvFile Fchmod p (Some owner_rw);
   EvFile FWrite p (Some owner_rw)].

Definition debug_msg (out err : string) : string :=
  "ipmitool stdout: '" +:+ out +:+ "', stderr: '" +:+ err +:+ "'".

Definition answer_events (r : exec_result) : list event :=
  match r with
  | ExecOk out err => [EvLog DEBUG (debug_msg out err)]
  | ExecFail => []
  end.

(** The events of [_exec_ipmitool command] when the secret file is [p] and
    the command comes back with [r]. *)
Definition exec_events (o : IPMI) (p command : string) (r : exec_result)
  : list event :=
  secret_events p ++ [EvExecute (ipmitool_args o p command) ipmitool_kw]
  ++ answer_events r ++ [EvFile Unlink p None].

Definition outcome (r : exec_result) : result (string * string) :=
  match r with
  | ExecOk out err => Return (out, err)
  | ExecFail => Raise ProcessExecutionError
  end.

(** [k] more commands executed, [evs] more events, the rest untouched. *)
Definition advance (k : nat) (evs : list event) (m : machine) : machine :=
  mkMachine (self m) (CONF m) (getuid m) (getgid m) (env m) (k + nexec m) (fs m)
            (trace m ++ evs).

(** The file system replaced, [evs] more events. *)
Definition with_fs (f : gmap string file) (evs : list event) (m : machine)
  : machine :=
  mkMachine (self m) (CONF m) (getuid m) (getgid m) (env m) (nexec m) f
            (trace m ++ evs).

(** The answer the next [ipmitool] invocation of [m] gets for [command]. *)
Definition answer (command : string) (m : machine) : exec_result :=
  env m (nexec m) (ipmitool_args (self m) (pwfile m) command).

Definition status_line (expected : string) : string :=
  "Chassis Power is " +:+ expected +:+ LF.

(** The subcommand of an [ipmitool] argument vector: what follows the nine
    leading arguments. *)
Definition is_command (command : string) (e : event) : bool :=
  match e with
  | EvExecute args _ => bool_decide (drop 9 args = split " " command)
  | _ => false
  end.

(** An argument vector that asks [ipmitool] for the power status. *)
Definition status_args (args : list string) : Prop :=
  drop 9 args = ["power"; "status"].

(** The status query never reports [expected]: however often it is asked
    and whatever becomes of it, it does not come back with the status line
    for [expected]. *)
Definition never_reports (expected : string)
  (e : nat -> list string -> exec_result) : Prop :=
  forall k args err, status_args args ->
    e k args <> ExecOk (status_line expected) err.

(** The status query always completes, whatever it prints. *)
Definition status_answers (e : nat -> list string -> exec_result) : Prop :=
  forall k args, status_args args -> e k args <> ExecFail.

Definition pxe_failure_events (r : exec_result) : list event :=
  match r with
  | ExecOk _ _ => []
  | ExecFail => [EvLog EXCEPTION "IPMI set next bootdev failed"]
  end.

(** The warning [activate_node] logs on a node that is on and recorded as
    [ACTIVE], and nothing otherwise. *)
Definition warning_events (on : bool) (o : IPMI) : list event :=
  if on && bool_decide (state o = Some states.ACTIVE)
  then [EvLog WARNING (already_active_msg (address o))]
  else [].

(** The machine once [_set_pxe_for_next_boot] is through. *)
Definition after_pxe (m : machine) : machine :=
  advance 1 (exec_events (self m) (pwfile m) "chassis bootdev pxe"
                         (answer "chassis bootdev pxe" m)
             ++ pxe_failure_events (answer "chassis bootdev pxe" m)) m.

(** The machine [activate_node] is on after its opening status query
    answered "on" (with [err] on standard error) and the warning went to
    the log. *)
Definition after_warning (err : string) (m : machine) : machine :=
  advance 1 (exec_events (self m) (pwfile m) "power status"
                         (ExecOk (status_line "on") err)
             ++ [EvLog WARNING (already_active_msg (address (self m)))]) m.

(** Where the pid record of the node of [m] is kept. *)
Definition pid_path (m : machine) : string :=
  os_path.join (terminal_pid_dir (CONF m)) (node_id (self m) +:+ ".pid").

(** The shell command line [start_console] runs on machine [m] when the
    secret file is [p]. *)
Definition console_command (m : machine) (p : string) : string :=
  let o := self m in
  let conf := CONF m in
  let args := [terminal conf] in
  let args :=
    if nonempty (terminal_cert_dir conf)
    then args ++ ["-c"; default EmptyString (terminal_cert_dir conf)]
    else args ++ ["-t"] in
  let args := args ++ ["-p"] in
  let args := args ++ [pretty (default 0 (port o))] in
  let args := args ++ ["--background=" +:+ pid_path m] in
  let args := args ++ ["-s"] in
  let ipmi_args :=
    "/:" +:+ pretty (getuid m) +:+ ":" +:+ pretty (getgid m)
    +:+ ":HOME:ipmitool -H " +:+ address o +:+ " -I lanplus -U " +:+ user o
    +:+ " -f " +:+ p +:+ " sol activate" in
  let args := args ++ [ipmi_args] in
  let x := map shell_quote args in
  let x := x ++ ["</dev/null"] in
  let x := x ++ [">/dev/null"] in
  let x := x ++ ["2>&1"] in
  join " " x.

(** What [_get_console_pid] finds on machine [m]. *)
Definition console_pid (m : machine) : option Z :=
  match fs m !! pid_path m with
  | Some f => int (f_data f)
  | None => None
  end.

Definition no_pid_msg (path : string) : string :=
  "pid file " +:+ path +:+ " does not contain any pid".

(** The warning about a pid record that holds no number. *)
Definition pid_warning (m : machine) : list event :=
  match fs m !! pid_path m with
  | Some f =>
      match int (f_data f) with
      | Some _ => []
      | None => [EvLog WARNING (no_pid_msg (pid_path m))]
      end
  | None => []
  end.

Definition kill_args (pid : Z) : list string := ["kill"; "-TERM"; pretty pid].

(** The termination command of [stop_console] completes, whichever
    process it is sent to. *)
Definition kill_completes (m : machine) : Prop :=
  forall pid, env m (nexec m) (kill_args pid) <> ExecFail.

Definition unit_outcome (r : exec_result) : result unit :=
  match r with
  | ExecOk _ _ => Return tt
  | ExecFail => Raise ProcessExecutionError
  end.

(** What a file event says about the secret file [p]: it is about [p], and
    either it is the removal, or the file is there with permission bits
    [0600]. *)
Definition secret_event_ok (p : string) (e : event) : Prop :=
  match e with
  | EvFile op q mode =>
      q = p /\ (op = Unlink /\ mode = None
                \/ op <> Unlink /\ mode = Some owner_rw)
  | _ => True
  end.

(** The life of the secret file in a run of [c] from [m]: the run ends; a
    file that was not there is made first, with permission bits [0600];
    every file event of the run is about that file and finds it with
    these bits, up to its removal, which is the last event; and when the
    run is over the file is gone, the file system as it was. *)
Definition secret_file_scoped {A} (c : M A) (m : machine) : Prop :=
  exists p evs,
    fs m !! p = None
    /\ fst (c m) <> OutOfFuel
    /\ trace (snd (c m)) = trace m ++ EvFile Mkstemp p (Some owner_rw) :: evs
    /\ Forall (secret_event_ok p) evs
    /\ In (EvFile FWrite p (Some owner_rw)) evs
    /\ last evs = Some (EvFile Unlink p None)
    /\ fs (snd (c m)) !! p = None
    /\ fs (snd (c m)) = fs m.

Definition failure_events (op : power_op) (r : exec_result) : list event :=
  match r with
  | ExecOk _ _ => []
  | ExecFail => [EvLog EXCEPTION (failure_msg op)]
  end.

(** One invocation of the polling callback, case by case. *)
Definition callback_outcome (op : power_op) (r : Z) (m : machine)
  : result unit * machine :=
  let a := answer "power status" m in
  let m1 := advance 1 (exec_events (self m) (pwfile m) "power status" a) m in
  match a with
  | ExecFail => (Raise ProcessExecutionError, m1)
  | ExecOk out err =>
      if String.eqb out (status_line (expected_of op)) then
        (Raise LoopingCallDone,
         set_self (set_state (Some (success_of op)) (self m1)) m1)
      else if Z.ltb (ipmi_power_retry (CONF m)) r then
        (Raise LoopingCallDone,
         set_self (set_state (Some states.ERROR) (self m1)) m1)
      else
        let m2 := set_self (set_retries (Some (r + 1)) (self m1)) m1 in
        let b := answer (command_of op) m2 in
        (Return tt,
         advance 1 (exec_events (self m2) (pwfile m2) (command_of op) b
                    ++ failure_events op b) m2)
  end.

(** How many events of a stretch of the trace satisfy [f]. *)
Fixpoint count (f : event -> bool) (t : list event) : nat :=
  match t with
  | [] => 0
  | e :: t' => (if f e then 1 else 0) + count f t'
  end.

(** How often [command] was issued in a stretch of the trace. *)
Definition issued (command : string) (t : list event) : nat :=
  count (is_command command) t.

Definition is_callback (e : event) : bool :=
  match e with EvCallback => true | _ => false end.

(** How many times the looping call invoked its callback. *)
Definition iterations (t : list event) : nat := count is_callback t.

(** ** Vocabulary for the rest of the driver *)

(** Two controller objects for the same node: they agree on everything the
    constructor took from the node record. *)
Definition same_node (o o' : IPMI) : Prop :=
  node_id o' = node_id o /\ address o' = address o /\ user o' = user o
  /\ password o' = password o /\ port o' = port o.

(** The only commands a polling loop of [op] for the controller [o] may
    run: [ipmitool] over [lanplus] at the address and for the user of [o],
    with a secret file, asking for the power status or issuing the
    corrective command of [op], three attempts each. *)
Definition power_event_ok (op : power_op) (o : IPMI) (e : event) : Prop :=
  match e with
  | EvExecute args kw =>
      take 8 args = ["ipmitool"; "-I"; "lanplus"; "-H"; address o; "-U"; user o; "-f"]
      /\ (drop 9 args = ["power"; "status"]
          \/ drop 9 args = split " " (command_of op))
      /\ kw = ipmitool_kw
  | _ => True
  end.

(** What a run of a polling loop of [op] from [m] to [m'] with events
    [evs] keeps: the world outside the trace, the node the controller is
    for, the shape of its commands, and a counter that went up by one for
    each corrective command. *)
Definition power_frame (op : power_op) (m m' : machine) (evs : list event)
  : Prop :=
  trace m' = trace m ++ evs
  /\ env m' = env m /\ CONF m' = CONF m /\ fs m' = fs m
  /\ getuid m' = getuid m /\ getgid m' = getgid m
  /\ same_node (self m) (self m')
  /\ Forall (power_event_ok op (self m)) evs.

(** White space only. *)
Definition all_space (s : string) : Prop :=
  Forall (fun c => is_space c = true) (list_ascii_of_string s).

(** The controller of [m] with no recorded state. *)
Definition forget_state (m : machine) : machine :=
  set_self (set_state None (self m)) m.

(** A command of the controller [o] that is an [ipmitool] invocation: over
    [lanplus], at the address and for the user of [o], with a secret
    file, three attempts. *)
Definition ipmitool_event_ok (o : IPMI) (e : event) : Prop :=
  match e with
  | EvExecute args kw =>
      take 8 args = ["ipmitool"; "-I"; "lanplus"; "-H"; address o; "-U"; user o; "-f"]
      /\ kw = ipmitool_kw
  | _ => True
  end.

(** What every power operation keeps of the machine it starts from: the
    environment, the configuration, the node the controller is for; the
    trace only grows, and by no command other than [ipmitool] invocations
    for that node. *)
Definition world_frame (m m' : machine) : Prop :=
  env m' = env m /\ CONF m' = CONF m
  /\ getuid m' = getuid m /\ getgid m' = getgid m
  /\ same_node (self m) (self m')
  /\ exists evs, trace m' = trace m ++ evs
                 /\ Forall (ipmitool_event_ok (self m)) evs.

(** [c] keeps the frame, whatever machine it runs on and however it
    ends. *)
Definition keeps {A} (c : M A) : Prop :=
  forall m, world_frame m (snd (c m)).

Definition opposite (op : power_op) : power_op :=
  match op with PowerOn => PowerOff | PowerOff => PowerOn end.

(** The status query completes every time and its output is neither of
    the two status lines. *)
Definition status_unreadable (e : nat -> list string -> exec_result) : Prop :=
  forall k args, status_args args ->
    exists out err, e k args = ExecOk out err
                    /\ out <> status_line "on" /\ out <> status_line "off".

(** The status query answers "on" every time. *)
Definition status_always_on (e : nat -> list string -> exec_result) : Prop :=
  forall k args, status_args args ->
    exists err, e k args = ExecOk (status_line "on") err.

(** The machine of [m] with [s] as the recorded state. *)
Definition with_state (s : option states.t) (m : machine) : machine :=
  set_self (set_state s (self m)) m.

(** *** Reading a command line the way a shell does

    How a POSIX shell cuts a command line into words, as far as single
    quotes, backslashes and blanks go: inside single quotes every
    character stands for itself up to the closing quote; outside them a
    backslash makes the next character stand for itself, a quote opens a
    quoted stretch and a blank ends the word.  [cur] is the word being
    read, [None] between words; an unclosed quote or a dangling backslash
    is an error. *)
Definition push (cur : option string) (c : ascii) : option string :=
  Some (default EmptyString cur +:+ String c EmptyString).

Fixpoint sh_words (inq : bool) (cur : option string) (s : string)
  : option (list string) :=
  match s with
  | EmptyString =>
      if inq then None
      else Some (match cur with Some w => [w] | None => [] end)
  | String c s' =>
      if inq then
        if Ascii.eqb c "'" then sh_words false cur s'
        else sh_words true (push cur c) s'
      else if Ascii.eqb c "'" then
        sh_words true (Some (default EmptyString cur)) s'
      else if Ascii.eqb c " " then
        match cur with
        | Some w => cons w <$> sh_words false None s'
        | None => sh_words false None s'
        end
      else if Ascii.eqb c "\" then
        match s' with
        | String d s'' => sh_words false (push cur d) s''
        | EmptyString => None
        end
      else sh_words false (push cur c) s'
  end.

(** The status query prints something that is no status line. *)
Definition always_garbled : nat -> list string -> exec_result :=
  fun _ _ => ExecOk "Error: Unable to establish session" EmptyString.

(** *** The secret file on a file system that may refuse *)

(** The file system [d] lets the secret file [p] be made: created,
    restricted to its owner, written. *)
Definition accepts (d : disk) (p : string) : Prop :=
  d Mkstemp p = false /\ d Fchmod p = false /\ d FWrite p = false.

(** The file system [d] refuses one of the three steps. *)
Definition refuses (d : disk) (p : string) : Prop :=
  d Mkstemp p = true \/ d Fchmod p = true \/ d FWrite p = true.

(** [_make_password_file pw] on [m], step by step: the first step the
    file system refuses ends it, with the file as the steps before left
    it. *)
Definition secret_file_outcome (d : disk) (pw : string) (m : machine)
  : result string * machine :=
  let p := pwfile m in
  if d Mkstemp p then (Raise OSError, m)
  else if d Fchmod p then
    (Raise OSError,
     with_fs (<[p := mkFile owner_rw EmptyString]> (fs m))
             [EvFile Mkstemp p (Some owner_rw)] m)
  else if d FWrite p then
    (Raise IOError,
     with_fs (<[p := mkFile owner_rw EmptyString]> (fs m))
             [EvFile Mkstemp p (Some owner_rw); EvFile Fchmod p (Some owner_rw)] m)
  else
    (Return p, with_fs (<[p := mkFile owner_rw pw]> (fs m)) (secret_events p) m).

(** [_make_password_file] gets through on [m]: the secret file of the
    controller has been created, restricted and written. *)
Definition secret_file_made (d : disk) (m : machine) : Prop :=
  exists p m',
    on_disk._make_password_file d (password (self m)) m = (Return p, m').

(** A file system with no space left: files can be created, nothing can
    be written to them. *)
Definition disk_full : disk :=
  fun op _ => match op with FWrite => true | _ => false end.

(** A file system on which nothing can be created. *)
Definition read_only : disk :=
  fun op _ => match op with Mkstemp => true | _ => false end.

(** The first two commands answer "off", every later one fails: the status
    query of the second invocation of a polling callback is the third
    command. *)
Definition status_fails_later : nat -> list string -> exec_result :=
  fun k _ =>
    if Nat.ltb k 2 then ExecOk ("Chassis Power is off" +:+ LF) EmptyString
    else ExecFail.

(** What the status query of the first invocation of the power-on loop of
    [activate_node] gets, on a node that answered "on" (with [err] on
    standard error) and was recorded as [ACTIVE] when [activate_node]
    started on [m]: it is the third command of the operation. *)
Definition first_poll (err : string) (m : machine) : exec_result :=
  answer "power status" (after_pxe (after_warning err m)).

(** ** Basic facts *)

(** Reading a field of a machine that was built from another one. *)
Ltac msimpl :=
  cbn [self CONF getuid getgid env nexec fs trace advance with_fs set_self
       set_fs emit tick state retries node_id address user password port
       set_state set_retries] in *.

Lemma pwfile_fresh (m : machine) : fs m !! pwfile m = None.
Proof. apply fresh_string_fresh. Qed.

(** Running [c] first and [k] on what it returns. *)
Lemma bind_Return {A B} (c : M A) (k : A -> M B) (m m' : machine) (a : A) :
  c m = (Return a, m') -> bind c k m = k a m'.
Proof. unfold bind; intros ->; reflexivity. Qed.

Lemma bind_Raise {A B} (c : M A) (k : A -> M B) (m m' : machine) (e : exn) :
  c m = (Raise e, m') -> bind c k m = (Raise e, m').
Proof. unfold bind; intros ->; reflexivity. Qed.

Lemma mkstemp_eq (d : disk) (m : machine) :
  d Mkstemp (pwfile m) = false ->
  tempfile.mkstemp d m =
  (Return (pwfile m),
   with_fs (<[pwfile m := mkFile owner_rw EmptyString]> (fs m))
           [EvFile Mkstemp (pwfile m) (Some owner_rw)] m).
Proof.
  intros Hd. destruct m as [o c u g e k f t].
  unfold pwfile in *. unfold tempfile.mkstemp, bind at 1, gets at 1.
  cbn [self CONF getuid getgid env nexec fs trace] in *. rewrite Hd.
  unfold file_event, bind, gets, modify, ret, set_fs, emit, stat_mode, with_fs.
  cbn [self CONF getuid getgid env nexec fs trace].
  generalize (tempfile.fresh_path f); intros p.
  rewrite lookup_insert_eq. reflexivity.
Qed.

Lemma mkstemp_refused (d : disk) (m : machine) :
  d Mkstemp (pwfile m) = true -> tempfile.mkstemp d m = (Raise OSError, m).
Proof.
  intros Hd. unfold tempfile.mkstemp, bind, gets, pwfile in *.
  rewrite Hd. reflexivity.
Qed.

Lemma fchmod_eq (d : disk) (p : string) (mode : Z) (x : file) (m : machine) :
  d Fchmod p = false ->
  fs m !! p = Some x ->
  os.fchmod d p mode m =
  (Return tt,
   with_fs (<[p := mkFile mode (f_data x)]> (fs m)) [EvFile Fchmod p (Some mode)] m).
Proof.
  intros Hd Hp. destruct m as [o c u g e k f t].
  unfold os.fchmod. rewrite Hd.
  unfold file_event, bind, gets, modify, ret, set_fs, emit, stat_mode, with_fs.
  cbn [self CONF getuid getgid env nexec fs trace] in *.
  rewrite lookup_alter_eq, Hp. cbn [fmap option_fmap option_map f_mode].
  do 3 f_equal. apply map_eq; intros i. destruct (decide (p = i)) as [->|].
  - by rewrite lookup_alter_eq, lookup_insert_eq, Hp.
  - by rewrite lookup_alter_ne, lookup_insert_ne.
Qed.

Lemma fchmod_refused (d : disk) (p : string) (mode : Z) (m : machine) :
  d Fchmod p = true -> os.fchmod d p mode m = (Raise OSError, m).
Proof. intros Hd. unfold os.fchmod. rewrite Hd. reflexivity. Qed.

Lemma fdopen_write_eq (d : disk) (p data : string) (x : file) (m : machine) :
  d FWrite p = false ->
  fs m !! p = Some x ->
  os.fdopen_write d p data m =
  (Return tt,
   with_fs (<[p := mkFile (f_mode x) data]> (fs m))
           [EvFile FWrite p (Some (f_mode x))] m).
Proof.
  intros Hd Hp. destruct m as [o c u g e k f t].
  unfold os.fdopen_write. rewrite Hd.
  unfold file_event, bind, gets, modify, ret, set_fs, emit, stat_mode, with_fs.
  cbn [self CONF getuid getgid env nexec fs trace] in *.
  rewrite lookup_alter_eq, Hp. cbn [fmap option_fmap option_map f_mode].
  do 3 f_equal. apply map_eq; intros i. destruct (decide (p = i)) as [->|].
  - by rewrite lookup_alter_eq, lookup_insert_eq, Hp.
  - by rewrite lookup_alter_ne, lookup_insert_ne.
Qed.

Lemma fdopen_write_refused (d : disk) (p data : string) (m : machine) :
  d FWrite p = true -> os.fdopen_write d p data m = (Raise IOError, m).
Proof. intros Hd. unfold os.fdopen_write. rewrite Hd. reflexivity. Qed.

Lemma delete_if_exists_eq (p : string) (m : machine) :
  utils.delete_if_exists p m =
  (Return tt, with_fs (delete p (fs m)) [EvFile Unlink p None] m).
Proof.
  destruct m as [o c u g e k f t].
  unfold utils.delete_if_exists, file_event, bind, gets, modify, ret, set_fs,
    emit, stat_mode, with_fs.
  cbn [self CONF getuid getgid env nexec fs trace].
  rewrite lookup_delete_eq. reflexivity.
Qed.

Lemma execute_eq (args : list string) (kw : exec_kw) (m : machine) :
  utils.execute args kw m =
  (outcome (env m (nexec m) args), advance 1 [EvExecute args kw] m).
Proof.
  destruct m as [o c u g e k f t].
  unfold utils.execute, bind, gets, modify, ret, raise, emit, tick, advance, outcome.
  cbn [self CONF getuid getgid env nexec fs trace Nat.add].
  destruct (e k args); reflexivity.
Qed.

Lemma with_fs_with_fs f1 f2 e1 e2 m :
  with_fs f2 e2 (with_fs f1 e1 m) = with_fs f2 (e1 ++ e2) m.
Proof. unfold with_fs; simpl. by rewrite app_assoc. Qed.

Lemma emit_advance e k evs m :
  emit e (advance k evs m) = advance k (evs ++ [e]) m.
Proof. unfold emit, advance; simpl. by rewrite app_assoc. Qed.

(** [_make_password_file] on any file system. *)
Lemma on_disk_make_password_file_eq (d : disk) (pw : string) (m : machine) :
  on_disk._make_password_file d pw m = secret_file_outcome d pw m.
Proof.
  unfold on_disk._make_password_file, secret_file_outcome. cbv zeta.
  destruct (d Mkstemp (pwfile m)) eqn:H1.
  { erewrite bind_Raise by (apply mkstemp_refused; exact H1). reflexivity. }
  erewrite bind_Return by (apply mkstemp_eq; exact H1).
  destruct (d Fchmod (pwfile m)) eqn:H2.
  { erewrite bind_Raise by (apply fchmod_refused; exact H2). reflexivity. }
  erewrite bind_Return by (apply fchmod_eq; [exact H2 | apply lookup_insert_eq]).
  destruct (d FWrite (pwfile m)) eqn:H3.
  { erewrite bind_Raise by (apply fdopen_write_refused; exact H3).
    rewrite !with_fs_with_fs. cbn [fs with_fs f_mode f_data].
    rewrite !insert_insert_eq. reflexivity. }
  erewrite bind_Return by (apply fdopen_write_eq; [exact H3 | apply lookup_insert_eq]).
  unfold ret. rewrite !with_fs_with_fs. cbn [fs with_fs f_mode f_data].
  rewrite !insert_insert_eq. reflexivity.
Qed.

Lemma accepts_reliable (p : string) : accepts reliable p.
Proof. repeat split. Qed.

Lemma secret_file_outcome_accepts (d : disk) (pw : string) (m : machine) :
  accepts d (pwfile m) ->
  secret_file_outcome d pw m =
  (Return (pwfile m),
   with_fs (<[pwfile m := mkFile owner_rw pw]> (fs m)) (secret_events (pwfile m)) m).
Proof.
  intros (H1 & H2 & H3). unfold secret_file_outcome. cbv zeta.
  rewrite H1, H2, H3. reflexivity.
Qed.

(** When the file system refuses, [_make_password_file] raises; nothing
    has run, the controller is as it was, and the file is there unless it
    was its creation that was refused. *)
Lemma secret_file_outcome_refuses (d : disk) (pw : string) (m : machine) :
  refuses d (pwfile m) ->
  exists e m',
    secret_file_outcome d pw m = (Raise e, m')
    /\ (e = OSError \/ e = IOError)
    /\ self m' = self m /\ CONF m' = CONF m /\ nexec m' = nexec m
    /\ (d Mkstemp (pwfile m) = true -> m' = m)
    /\ (d Mkstemp (pwfile m) = false ->
        fs m' = <[pwfile m := mkFile owner_rw EmptyString]> (fs m)).
Proof.
  intros Href. unfold secret_file_outcome. cbv zeta.
  destruct (d Mkstemp (pwfile m)) eqn:H1.
  { eexists _, _. split; [reflexivity|]. split; [left; reflexivity|].
    do 3 (split; [reflexivity|]). split; intros; (discriminate || reflexivity). }
  destruct (d Fchmod (pwfile m)) eqn:H2.
  { eexists _, _. split; [reflexivity|]. split; [left; reflexivity|].
    do 3 (split; [reflexivity|]). split; intros; (discriminate || reflexivity). }
  destruct (d FWrite (pwfile m)) eqn:H3.
  { eexists _, _. split; [reflexivity|]. split; [right; reflexivity|].
    do 3 (split; [reflexivity|]). split; intros; (discriminate || reflexivity). }
  destruct Href as [H | [H | H]]; congruence.
Qed.

Lemma _make_password_file_eq (pw : string) (m : machine) :
  _make_password_file pw m =
  (Return (pwfile m),
   with_fs (<[pwfile m := mkFile owner_rw pw]> (fs m)) (secret_events (pwfile m)) m).
Proof.
  unfold _make_password_file. rewrite on_disk_make_password_file_eq.
  apply secret_file_outcome_accepts, accepts_reliable.
Qed.

(** [_exec_ipmitool] on any file system: the command runs and the secret
    file is removed when the file could be made; the error of
    [_make_password_file] is the outcome when it could not. *)
Lemma on_disk_exec_ipmitool_eq (d : disk) (command : string) (m : machine) :
  on_disk._exec_ipmitool d command m =
  match secret_file_outcome d (password (self m)) m with
  | (Return _, _) =>
      (outcome (answer command m),
       advance 1 (exec_events (self m) (pwfile m) command (answer command m)) m)
  | (Raise e, m') => (Raise e, m')
  | (OutOfFuel, m') => (OutOfFuel, m')
  end.
Proof.
  unfold on_disk._exec_ipmitool.
  erewrite bind_Return by reflexivity.
  unfold bind at 1. rewrite on_disk_make_password_file_eq.
  unfold secret_file_outcome. cbv zeta.
  destruct (d Mkstemp (pwfile m)); [reflexivity|].
  destruct (d Fchmod (pwfile m)); [reflexivity|].
  destruct (d FWrite (pwfile m)); [reflexivity|].
  pose proof (pwfile_fresh m) as Hfresh.
  unfold try_finally, answer, bind at 1. rewrite execute_eq.
  fold (ipmitool_args (self m) (pwfile m) command).
  generalize dependent (pwfile m); intros p Hfresh.
  destruct m as [o c u g e k f t].
  cbn [self CONF getuid getgid env nexec fs trace with_fs advance] in *.
  destruct (e k _) as [out err|]; cbn [outcome];
    [unfold LOG.debug, bind, modify, ret, emit|];
    rewrite delete_if_exists_eq;
    unfold with_fs, advance, exec_events, answer_events, debug_msg;
    cbn [self CONF getuid getgid env nexec fs trace fst snd Nat.add];
    rewrite delete_insert_id by done;
    rewrite <- !app_assoc; reflexivity.
Qed.

Lemma _exec_ipmitool_eq (command : string) (m : machine) :
  _exec_ipmitool command m =
  (outcome (answer command m),
   advance 1 (exec_events (self m) (pwfile m) command (answer command m)) m).
Proof.
  unfold _exec_ipmitool. rewrite on_disk_exec_ipmitool_eq.
  rewrite secret_file_outcome_accepts by apply accepts_reliable. reflexivity.
Qed.

Lemma _is_power_eq (expected : string) (m : machine) :
  _is_power expected m =
  (match answer "power status" m with
   | ExecOk out err => Return (String.eqb out (status_line expected))
   | ExecFail => Raise ProcessExecutionError
   end,
   advance 1 (exec_events (self m) (pwfile m) "power status"
                          (answer "power status" m)) m).
Proof.
  unfold _is_power, bind. rewrite _exec_ipmitool_eq.
  destruct (answer "power status" m); reflexivity.
Qed.

Lemma callback_eq (op : power_op) (r : Z) (m : machine) :
  retries (self m) = Some r ->
  callback_of op m = callback_outcome op r m.
Proof.
  intros Hr. unfold callback_outcome.
  destruct op; unfold callback_of;
    [unfold _wait_for_power_on | unfold _wait_for_power_off];
    unfold bind at 1; rewrite _is_power_eq;
    (destruct (answer "power status" m) as [out err|]; [|reflexivity]);
    cbn [expected_of success_of command_of];
    (destruct (String.eqb out _); [reflexivity|]);
    unfold bind at 1, retries_exceeded, bind at 1, gets at 1, bind at 1,
      gets at 1, ret at 1;
    cbn [self advance CONF]; rewrite Hr;
    (destruct (Z.ltb _ r); [reflexivity|]);
    unfold try_except, incr_retries, bind at 1, bind at 1, gets at 1;
    cbn [self advance set_self]; rewrite Hr;
    unfold modify at 1, bind at 1;
    rewrite _exec_ipmitool_eq;
    cbn [self advance set_self];
    match goal with |- context [answer ?c ?mm] => destruct (answer c mm) end;
    cbn [outcome failure_events];
    unfold ret, LOG.exception, modify; rewrite ?app_nil_r, ?emit_advance;
    reflexivity.
Qed.

(** ** Counting in traces *)

Lemma count_app f t1 t2 : count f (t1 ++ t2) = (count f t1 + count f t2)%nat.
Proof. induction t1 as [|e t1 IH]; simpl; [reflexivity | rewrite IH; lia]. Qed.

Lemma issued_app c t1 t2 : issued c (t1 ++ t2) = (issued c t1 + issued c t2)%nat.
Proof. apply count_app. Qed.

Lemma iterations_app t1 t2 :
  iterations (t1 ++ t2) = (iterations t1 + iterations t2)%nat.
Proof. apply count_app. Qed.

Lemma iterations_exec_events o p c a : iterations (exec_events o p c a) = 0%nat.
Proof. destruct a; reflexivity. Qed.

Lemma iterations_failure_events op a : iterations (failure_events op a) = 0%nat.
Proof. destruct a; reflexivity. Qed.

Lemma issued_failure_events c op a : issued c (failure_events op a) = 0%nat.
Proof. destruct a; reflexivity. Qed.

Lemma issued_exec_events c o p c' a :
  issued c (exec_events o p c' a) =
  if bool_decide (split " " c' = split " " c) then 1%nat else 0%nat.
Proof.
  unfold exec_events, secret_events, ipmitool_args.
  rewrite !issued_app.
  assert (issued c (answer_events a) = 0%nat) as -> by (destruct a; reflexivity).
  unfold issued. cbn [count is_command app skipn].
  destruct (bool_decide _); reflexivity.
Qed.

(** ** One invocation of the callback *)

Lemma issued_status op o p a :
  issued (command_of op) (exec_events o p "power status" a) = 0%nat.
Proof. rewrite issued_exec_events. destruct op; reflexivity. Qed.

Lemma issued_command op o p a :
  issued (command_of op) (exec_events o p (command_of op) a) = 1%nat.
Proof. rewrite issued_exec_events. by rewrite bool_decide_eq_true_2. Qed.

Lemma status_args_ok o p : status_args (ipmitool_args o p "power status").
Proof. reflexivity. Qed.

(** What an invocation of the callback by the looping call comes to, when
    the counter stands at [r]: the status query fails and its error
    escapes; or the target state is reported and recorded; or the budget
    is used up and [ERROR] is recorded; or the counter goes up by one and
    the command is issued once. *)
Lemma callback_cases (op : power_op) (r : Z) (m : machine) :
  retries (self m) = Some r ->
  exists res m' evs,
    callback_of op (emit EvCallback m) = (res, m')
    /\ trace m' = trace m ++ EvCallback :: evs
    /\ iterations evs = 0%nat
    /\ env m' = env m /\ CONF m' = CONF m /\ fs m' = fs m
    /\ ((res = Raise ProcessExecutionError
         /\ self m' = self m
         /\ exists k args, status_args args /\ env m k args = ExecFail)
        \/ (res = Raise LoopingCallDone
            /\ self m' = set_state (Some (success_of op)) (self m)
            /\ issued (command_of op) evs = 0%nat
            /\ nexec m' = S (nexec m)
            /\ exists k args err,
                 status_args args
                 /\ env m k args = ExecOk (status_line (expected_of op)) err)
        \/ (res = Raise LoopingCallDone
            /\ self m' = set_state (Some states.ERROR) (self m)
            /\ issued (command_of op) evs = 0%nat
            /\ ipmi_power_retry (CONF m) < r)
        \/ (res = Return tt
            /\ self m' = set_retries (Some (r + 1)) (self m)
            /\ issued (command_of op) evs = 1%nat
            /\ r <= ipmi_power_retry (CONF m))).
Proof.
  intros Hr. rewrite (callback_eq op r) by exact Hr.
  unfold callback_outcome.
  destruct (answer "power status" (emit EvCallback m)) as [out err|] eqn:Ha.
  - destruct (String.eqb out _) eqn:Hout.
    + apply String.eqb_eq in Hout; subst out.
      eexists _, _, _; split; [reflexivity|]. msimpl.
      rewrite <- app_assoc. split; [reflexivity|].
      rewrite iterations_exec_events.
      repeat (split; [reflexivity|]).
      right; left. rewrite issued_status. repeat (split; [reflexivity|]).
      eexists _, _, _; split; [apply status_args_ok | exact Ha].
    + destruct (Z.ltb _ r) eqn:Hlt.
      * apply Z.ltb_lt in Hlt.
        eexists _, _, _; split; [reflexivity|]. msimpl.
        rewrite <- app_assoc. split; [reflexivity|].
        rewrite iterations_exec_events.
        repeat (split; [reflexivity|]).
        right; right; left. rewrite issued_status.
        repeat (split; [reflexivity|]). exact Hlt.
      * apply Z.ltb_ge in Hlt.
        eexists _, _, _; split; [reflexivity|]. msimpl.
        rewrite <- !app_assoc. split; [reflexivity|].
        rewrite !iterations_app, !iterations_exec_events,
          iterations_failure_events.
        repeat (split; [reflexivity|]).
        right; right; right.
        rewrite !issued_app, issued_status, issued_command,
          issued_failure_events.
        repeat (split; [reflexivity|]). exact Hlt.
  - eexists _, _, _; split; [reflexivity|]. msimpl.
    rewrite <- app_assoc. split; [reflexivity|].
    rewrite iterations_exec_events.
    repeat (split; [reflexivity|]).
    left. repeat (split; [reflexivity|]).
    eexists _, _; split; [apply status_args_ok | exact Ha].
Qed.

(** ** The polling loop *)

(** Started with the counter at [r] and with fuel for every invocation
    the budget leaves room for, the loop ends: on a recorded state, or on
    the error of a status query. *)
Lemma loop_spec (op : power_op) (j : nat) :
  forall (m : machine) (r : Z) (fuel : nat),
    retries (self m) = Some r ->
    ipmi_power_retry (CONF m) + 1 - r <= Z.of_nat j ->
    (j + 1 <= fuel)%nat ->
    exists res m' evs,
      loopingcall.FixedIntervalLoopingCall fuel (callback_of op) m = (res, m')
      /\ trace m' = trace m ++ EvCallback :: evs
      /\ env m' = env m /\ CONF m' = CONF m /\ fs m' = fs m
      /\ (iterations evs <= j)%nat
      /\ ((res = Return tt
           /\ (state (self m') = Some (success_of op)
               \/ state (self m') = Some states.ERROR
                  /\ exists r', retries (self m') = Some r'
                                /\ ipmi_power_retry (CONF m) < r'))
          \/ (res = Raise ProcessExecutionError
              /\ exists k args, status_args args /\ env m k args = ExecFail)).
Proof.
  induction j as [|j IH]; intros m r fuel Hr Hj Hfuel;
    (destruct fuel as [|fuel]; [lia|]);
    cbn [loopingcall.FixedIntervalLoopingCall];
    destruct (callback_cases op r m Hr)
      as (res & m' & evs & -> & Ht & Hit & He & Hc & Hf & Hcase);
    destruct Hcase as [(-> & Hs & Hfail) | [(-> & Hs & _) | [(-> & Hs & _ & Hlt)
                      | (-> & Hs & _ & Hle)]]];
    try (exists (Raise ProcessExecutionError), m', evs;
         split; [reflexivity|]; split; [exact Ht|];
         repeat (split; [assumption|]); split; [lia|];
         right; split; [reflexivity | exact Hfail]);
    try (exists (Return tt), m', evs;
         split; [reflexivity|]; split; [exact Ht|];
         repeat (split; [assumption|]); split; [lia|];
         left; split; [reflexivity|]; rewrite Hs; msimpl;
         first [ left; reflexivity
               | right; split; [reflexivity|];
                 exists r; split; [exact Hr | exact Hlt] ]).
  - lia.
  - destruct (IH m' (r + 1) fuel) as (res & m'' & evs' & Hrun & Ht' & He' & Hc'
                                      & Hf' & Hit' & Hcase').
    + rewrite Hs. reflexivity.
    + rewrite Hc. lia.
    + lia.
    + exists res, m'', (evs ++ EvCallback :: evs').
      split; [exact Hrun|].
      split; [rewrite Ht', Ht, <- app_assoc; reflexivity|].
      split; [congruence|]. split; [congruence|]. split; [congruence|].
      split.
      { change (EvCallback :: evs') with ([EvCallback] ++ evs').
        rewrite !iterations_app, Hit. cbn. lia. }
      rewrite Hc, He in Hcase'. exact Hcase'.
Qed.

(** With a status query that completes every time and never reports the
    target state, every invocation but the last issues the command once;
    the last one finds the counter above the budget. *)
Lemma loop_exhausts (op : power_op) (j : nat) :
  forall (m : machine) (r : Z) (fuel : nat),
    retries (self m) = Some r ->
    r + Z.of_nat j = ipmi_power_retry (CONF m) + 1 ->
    (j + 1 <= fuel)%nat ->
    status_answers (env m) ->
    never_reports (expected_of op) (env m) ->
    exists m' evs,
      loopingcall.FixedIntervalLoopingCall fuel (callback_of op) m = (Return tt, m')
      /\ trace m' = trace m ++ evs
      /\ state (self m') = Some states.ERROR
      /\ issued (command_of op) evs = j
      /\ iterations evs = (j + 1)%nat.
Proof.
  induction j as [|j IH]; intros m r fuel Hr Hj Hfuel Hans Hnever;
    (destruct fuel as [|fuel]; [lia|]);
    cbn [loopingcall.FixedIntervalLoopingCall];
    destruct (callback_cases op r m Hr)
      as (res & m' & evs & -> & Ht & Hit & He & Hc & Hf & Hcase);
    destruct Hcase as [(-> & Hs & k & args & Hargs & Hfail)
                      | [(-> & Hs & _ & _ & k & args & err & Hargs & Hon)
                      | [(-> & Hs & Hiss & Hlt) | (-> & Hs & Hiss & Hle)]]];
    try (destruct (Hans k args Hargs Hfail));
    try (destruct (Hnever k args err Hargs Hon)).
  - exists m', (EvCallback :: evs). split; [reflexivity|]. split; [exact Ht|].
    split; [rewrite Hs; reflexivity|].
    change (EvCallback :: evs) with ([EvCallback] ++ evs).
    rewrite issued_app, iterations_app, Hiss, Hit. split; reflexivity.
  - lia.
  - lia.
  - destruct (IH m' (r + 1) fuel) as (m'' & evs' & Hrun & Ht' & Hst & Hiss' & Hit').
    + rewrite Hs. reflexivity.
    + rewrite Hc. lia.
    + lia.
    + rewrite He. exact Hans.
    + rewrite He. exact Hnever.
    + exists m'', (EvCallback :: evs ++ evs').
      split; [exact Hrun|].
      split; [rewrite Ht', Ht, <- app_assoc; reflexivity|].
      split; [exact Hst|].
      change (EvCallback :: evs ++ evs') with ([EvCallback] ++ evs ++ evs').
      rewrite !issued_app, !iterations_app, Hiss, Hit, Hiss', Hit'.
      split; cbn; lia.
Qed.

Lemma run_power_eq (op : power_op) (fuel : nat) (m : machine) :
  run_power op fuel m =
  loopingcall.FixedIntervalLoopingCall fuel (callback_of op)
    (set_self (set_retries (Some 0) (self m)) m).
Proof. destruct op; reflexivity. Qed.

(** C1, as the code has it.  For a retry budget [n >= 0], when every
    status query completes and none of them reports the target state, the
    power-on and the power-off operation end (on any fuel that allows
    [n + 2] invocations of the callback) after exactly [n + 1] issues of
    the corrective command, and leave the state [ERROR], which is what the
    [return self.state] that follows hands back. *)
Theorem power_operation_exhausts_budget
  (op : power_op) (m : machine) (fuel : nat) :
  0 <= ipmi_power_retry (CONF m) ->
  (Z.to_nat (ipmi_power_retry (CONF m)) + 2 <= fuel)%nat ->
  status_answers (env m) ->
  never_reports (expected_of op) (env m) ->
  exists m' evs,
    run_power op fuel m = (Return tt, m')
    /\ trace m' = trace m ++ evs
    /\ state (self m') = Some states.ERROR
    /\ Z.of_nat (issued (command_of op) evs) = ipmi_power_retry (CONF m) + 1
    /\ (run_power op fuel ;; gets (fun m => state (self m))) m
       = (Return (Some states.ERROR), m').
Proof.
  intros Hn Hfuel Hans Hnever. rewrite run_power_eq.
  destruct (loop_exhausts op (Z.to_nat (ipmi_power_retry (CONF m) + 1))
              (set_self (set_retries (Some 0) (self m)) m) 0 fuel)
    as (m' & evs & Hrun & Ht & Hst & Hiss & _).
  - reflexivity.
  - msimpl. lia.
  - lia.
  - exact Hans.
  - exact Hnever.
  - exists m', evs. split; [exact Hrun|]. split; [exact Ht|].
    split; [exact Hst|]. split; [rewrite Hiss; lia|].
    rewrite <- run_power_eq in Hrun.
    erewrite bind_Return by exact Hrun. unfold gets. rewrite Hst. reflexivity.
Qed.

(** C1, as the claim has it, fails.  A status query that fails never
    reports the target state either, and its error is not caught: when it
    fails from the start, [_power_on] raises before any "power on" is
    issued; when it fails on the second invocation, after one.  In both
    runs the budget of 5 is not used up and no [ERROR] is recorded. *)
Lemma power_operation_stops_short_of_budget :
  never_reports "on" always_fails
  /\ ipmi_power_retry (CONF (machine0 always_fails)) = 5
  /\ fst (_power_on 7 (machine0 always_fails)) = Raise ProcessExecutionError
  /\ issued "power on" (events_of (_power_on 7) (machine0 always_fails)) = 0%nat
  /\ state (self (snd (_power_on 7 (machine0 always_fails)))) = None
  /\ never_reports "on" status_fails_later
  /\ fst (_power_on 7 (machine0 status_fails_later)) = Raise ProcessExecutionError
  /\ issued "power on" (events_of (_power_on 7) (machine0 status_fails_later))
     = 1%nat
  /\ state (self (snd (_power_on 7 (machine0 status_fails_later)))) = None.
Proof.
  split; [intros k args err _ H; discriminate H|].
  split; [reflexivity|].
  split; [vm_compute; reflexivity|].
  split; [vm_compute; reflexivity|].
  split; [vm_compute; reflexivity|].
  split.
  { intros k args err _. unfold status_fails_later.
    destruct (Nat.ltb k 2); intros H; [|discriminate H].
    injection H as H _. vm_compute in H. discriminate H. }
  split; [vm_compute; reflexivity|].
  split; vm_compute; reflexivity.
Qed.

Lemma power_spec (op : power_op) (m : machine) (fuel : nat) :
  (Z.to_nat (ipmi_power_retry (CONF m) + 1) + 1 <= fuel)%nat ->
  exists res m' evs,
    run_power op fuel m = (res, m')
    /\ trace m' = trace m ++ EvCallback :: evs
    /\ env m' = env m /\ CONF m' = CONF m /\ fs m' = fs m
    /\ (iterations evs <= Z.to_nat (ipmi_power_retry (CONF m) + 1))%nat
    /\ ((res = Return tt
         /\ (state (self m') = Some (success_of op)
             \/ state (self m') = Some states.ERROR
                /\ exists r', retries (self m') = Some r'
                              /\ ipmi_power_retry (CONF m) < r'))
        \/ (res = Raise ProcessExecutionError
            /\ exists k args, status_args args /\ env m k args = ExecFail)).
Proof.
  intros Hfuel. rewrite run_power_eq.
  apply (loop_spec op (Z.to_nat (ipmi_power_retry (CONF m) + 1))
           (set_self (set_retries (Some 0) (self m)) m) 0 fuel).
  - reflexivity.
  - msimpl. lia.
  - exact Hfuel.
Qed.

(** What an invocation of the callback does to the counter. *)
Lemma callback_counter (op : power_op) (m : machine) (r : Z) :
  retries (self m) = Some r ->
  exists res m',
    callback_of op m = (res, m')
    /\ (((res = Raise LoopingCallDone \/ res = Raise ProcessExecutionError)
         /\ retries (self m') = Some r)
        \/ (res = Return tt
            /\ retries (self m') = Some (r + 1)
            /\ r <= ipmi_power_retry (CONF m))).
Proof.
  intros Hr. rewrite (callback_eq op r) by exact Hr. unfold callback_outcome.
  destruct (answer "power status" m) as [out err|].
  - destruct (String.eqb out _).
    + eexists _, _; split; [reflexivity|]. left. msimpl. auto.
    + destruct (Z.ltb _ r) eqn:Hlt.
      * eexists _, _; split; [reflexivity|]. left. msimpl. auto.
      * apply Z.ltb_ge in Hlt.
        eexists _, _; split; [reflexivity|]. right. msimpl. auto.
  - eexists _, _; split; [reflexivity|]. left. msimpl. auto.
Qed.

(** C8.  The polling state machine ends.  An invocation of the callback
    either ends the loop (completion is signalled, or the status query
    fails) and leaves the counter alone, or adds one to the counter, which
    it does only while the counter has not gone over the budget; so for a
    budget [n >= 0] the loop ends within [n + 2] invocations. *)
Theorem polling_terminates (op : power_op) (m : machine) (fuel : nat) :
  0 <= ipmi_power_retry (CONF m) ->
  (Z.to_nat (ipmi_power_retry (CONF m)) + 2 <= fuel)%nat ->
  (forall (m0 : machine) (r : Z),
      retries (self m0) = Some r ->
      exists res m1,
        callback_of op m0 = (res, m1)
        /\ (((res = Raise LoopingCallDone \/ res = Raise ProcessExecutionError)
             /\ retries (self m1) = Some r)
            \/ (res = Return tt
                /\ retries (self m1) = Some (r + 1)
                /\ r <= ipmi_power_retry (CONF m0))))
  /\ exists res m' evs,
       run_power op fuel m = (res, m')
       /\ res <> OutOfFuel
       /\ trace m' = trace m ++ evs
       /\ Z.of_nat (iterations evs) <= ipmi_power_retry (CONF m) + 2.
Proof.
  intros Hn Hfuel. split; [apply callback_counter|].
  destruct (power_spec op m fuel) as (res & m' & evs & Hrun & Ht & _ & _ & _
                                      & Hit & Hcase); [lia|].
  exists res, m', (EvCallback :: evs).
  split; [exact Hrun|].
  split; [destruct Hcase as [[-> _]|[-> _]]; discriminate|].
  split; [exact Ht|].
  change (EvCallback :: evs) with ([EvCallback] ++ evs).
  rewrite iterations_app. cbn [iterations count is_callback]. lia.
Qed.

(** C7.  When the status query of the first invocation reports the target
    state, the operation returns on that invocation: the status query is
    the only command that ran, the corrective command was not issued, and
    the state recorded is the success state ([ACTIVE] for power-on,
    [DELETED] for power-off). *)
Theorem first_check_reports_target
  (op : power_op) (m : machine) (fuel : nat) (err : string) :
  (1 <= fuel)%nat ->
  answer "power status" m = ExecOk (status_line (expected_of op)) err ->
  exists m' evs,
    run_power op fuel m = (Return tt, m')
    /\ trace m' = trace m ++ evs
    /\ evs = EvCallback
             :: exec_events (self m) (pwfile m) "power status"
                  (ExecOk (status_line (expected_of op)) err)
    /\ state (self m') = Some (success_of op)
    /\ retries (self m') = Some 0
    /\ nexec m' = S (nexec m)
    /\ issued (command_of op) evs = 0%nat
    /\ iterations evs = 1%nat
    /\ (run_power op fuel ;; gets (fun m => state (self m))) m
       = (Return (Some (success_of op)), m').
Proof.
  intros Hfuel Ha. destruct fuel as [|fuel]; [lia|].
  unfold bind.
  rewrite run_power_eq. cbn [loopingcall.FixedIntervalLoopingCall].
  rewrite (callback_eq op 0) by reflexivity.
  unfold callback_outcome.
  change (answer "power status"
            (emit EvCallback (set_self (set_retries (Some 0) (self m)) m)))
    with (answer "power status" m).
  rewrite Ha, String.eqb_refl.
  eexists _, _. split; [reflexivity|]. msimpl.
  split; [rewrite <- app_assoc; reflexivity|].
  split; [reflexivity|].
  repeat (split; [reflexivity|]).
  change (EvCallback :: ?l) with ([EvCallback] ++ l).
  rewrite issued_app, iterations_app, iterations_exec_events.
  split; [|split; reflexivity].
  change (exec_events (set_retries (Some 0) (self m))) with (exec_events (self m)).
  apply (issued_status op).
Qed.

(** C4.  [_is_power expected] is true exactly when the standard output of
    the status command is the line ["Chassis Power is <expected>"] followed
    by a line feed; any other output gives false, and no error. *)
Theorem is_power_exact_match
  (expected : string) (m : machine) (out err : string) :
  answer "power status" m = ExecOk out err ->
  exists b m',
    _is_power expected m = (Return b, m')
    /\ (b = true <-> out = "Chassis Power is " +:+ expected +:+ LF).
Proof.
  intros Ha. rewrite _is_power_eq, Ha.
  eexists _, _. split; [reflexivity|].
  unfold status_line. apply String.eqb_eq.
Qed.

(** ** The public operations *)

Lemma _set_pxe_for_next_boot_eq (m : machine) :
  _set_pxe_for_next_boot m = (Return tt, after_pxe m).
Proof.
  unfold _set_pxe_for_next_boot, try_except, after_pxe, bind.
  rewrite _exec_ipmitool_eq.
  destruct (answer "chassis bootdev pxe" m); cbn [outcome pxe_failure_events].
  - rewrite app_nil_r. reflexivity.
  - unfold LOG.exception, modify. rewrite emit_advance. reflexivity.
Qed.

Lemma activate_node_eq (fuel : nat) (m : machine) :
  activate_node fuel m =
  match answer "power status" m with
  | ExecFail =>
      (Raise ProcessExecutionError,
       advance 1 (exec_events (self m) (pwfile m) "power status" ExecFail) m)
  | ExecOk out err =>
      (_set_pxe_for_next_boot ;; _power_on fuel ;;
       gets (fun m => state (self m)))
        (advance 1 (exec_events (self m) (pwfile m) "power status"
                                (ExecOk out err)
                    ++ warning_events (String.eqb out (status_line "on"))
                                      (self m)) m)
  end.
Proof.
  unfold activate_node, bind at 1. rewrite _is_power_eq.
  destruct (answer "power status" m) as [out err|]; [|reflexivity].
  unfold bind at 1, gets at 1, bind at 1, warning_events. msimpl.
  destruct (String.eqb out (status_line "on") && _).
  - unfold LOG.warning, LOG.warn, modify. rewrite emit_advance. reflexivity.
  - unfold ret. rewrite app_nil_r. reflexivity.
Qed.

(** With status queries that complete, a polling loop returns, on the
    state it was after or on [ERROR] with the counter over the budget. *)
Lemma power_returns (op : power_op) (m : machine) (fuel : nat) :
  (Z.to_nat (ipmi_power_retry (CONF m) + 1) + 1 <= fuel)%nat ->
  status_answers (env m) ->
  exists m' evs,
    run_power op fuel m = (Return tt, m')
    /\ trace m' = trace m ++ EvCallback :: evs
    /\ env m' = env m /\ CONF m' = CONF m
    /\ (state (self m') = Some (success_of op)
        \/ state (self m') = Some states.ERROR
           /\ exists r', retries (self m') = Some r'
                         /\ ipmi_power_retry (CONF m) < r').
Proof.
  intros Hfuel Hans.
  destruct (power_spec op m fuel Hfuel)
    as (res & m' & evs & Hrun & Ht & He & Hc & _ & _ & Hcase).
  destruct Hcase as [[-> Hst] | [_ (k & args & Hargs & Hfail)]].
  - exists m', evs. auto.
  - destruct (Hans k args Hargs Hfail).
Qed.

(** The recorded state is what an operation hands back. *)
Lemma power_then_state (op : power_op) (m : machine) (fuel : nat) :
  (Z.to_nat (ipmi_power_retry (CONF m) + 1) + 1 <= fuel)%nat ->
  status_answers (env m) ->
  exists s m',
    (run_power op fuel ;; gets (fun m => state (self m))) m = (Return (Some s), m')
    /\ state (self m') = Some s
    /\ (s = success_of op
        \/ s = states.ERROR
           /\ exists r', retries (self m') = Some r'
                         /\ ipmi_power_retry (CONF m) < r').
Proof.
  intros Hfuel Hans.
  destruct (power_returns op m fuel Hfuel Hans)
    as (m' & evs & Hrun & _ & _ & _ & Hst).
  destruct Hst as [Hst | [Hst Hr]].
  - exists (success_of op), m'. erewrite bind_Return by exact Hrun.
    unfold gets. rewrite Hst. auto.
  - exists states.ERROR, m'. erewrite bind_Return by exact Hrun.
    unfold gets. rewrite Hst. auto.
Qed.

Lemma answer_not_fail (command : string) (m : machine) :
  status_answers (env m) -> answer "power status" m <> ExecFail.
Proof. intros Hans. apply Hans. apply status_args_ok. Qed.

(** C2, as the code has it.  Provided every status query completes
    (whatever it prints), each of [activate_node], [reboot_node] and
    [deactivate_node] returns a definite state: the state it was after, or
    [ERROR], and [ERROR] only with the retry counter over the budget.  The
    corrective command and the set-next-boot command may fail at will. *)
Theorem power_operation_returns_state
  (o : operation) (m : machine) (fuel : nat) :
  (Z.to_nat (ipmi_power_retry (CONF m) + 1) + 1 <= fuel)%nat ->
  status_answers (env m) ->
  exists s m',
    run_operation o fuel m = (Return (Some s), m')
    /\ state (self m') = Some s
    /\ (s = goal_of o
        \/ s = states.ERROR
           /\ exists r', retries (self m') = Some r'
                         /\ ipmi_power_retry (CONF m) < r').
Proof.
  intros Hfuel Hans. destruct o; cbn [run_operation goal_of].
  - rewrite activate_node_eq.
    pose proof (answer_not_fail "power status" m Hans) as Hok.
    destruct (answer "power status" m) as [out err|]; [clear Hok|done].
    erewrite bind_Return by apply _set_pxe_for_next_boot_eq.
    match goal with |- context [after_pxe ?x] => set (m2 := after_pxe x) end.
    destruct (power_then_state PowerOn m2 fuel) as (s & m' & Hrun & Hst & Hs);
      [exact Hfuel | exact Hans |].
    exists s, m'. auto.
  - unfold reboot_node.
    destruct (power_returns PowerOff m fuel Hfuel Hans)
      as (m1 & evs & Hrun & _ & He & Hc & _).
    erewrite bind_Return by exact Hrun.
    erewrite bind_Return by apply _set_pxe_for_next_boot_eq.
    destruct (power_then_state PowerOn (after_pxe m1) fuel)
      as (s & m' & Hrun' & Hst & Hs).
    { change (CONF (after_pxe m1)) with (CONF m1). rewrite Hc. exact Hfuel. }
    { change (env (after_pxe m1)) with (env m1). rewrite He. exact Hans. }
    change (CONF (after_pxe m1)) with (CONF m1) in Hs. rewrite Hc in Hs.
    exists s, m'. auto.
  - apply (power_then_state PowerOff); assumption.
Qed.

(** C2, as the claim has it, fails.  The status query fails once, on its
    first run, and the node answers from then on: [deactivate_node], whose
    first polling invocation makes that query, raises; and so does
    [activate_node], which asks for the status before it starts polling. *)
Lemma power_operation_raises_on_status_failure :
  (exists m',
      deactivate_node 7 (machine0 fails_once)
      = (Raise ProcessExecutionError, m'))
  /\ (exists m',
         activate_node 7 (machine0 fails_once)
         = (Raise ProcessExecutionError, m')).
Proof. split; eexists; vm_compute; reflexivity. Qed.

(** ** The secret file *)

Lemma _get_console_pid_path_eq (m : machine) :
  _get_console_pid_path (node_id (self m)) m = (Return (pid_path m), m).
Proof. reflexivity. Qed.

(** [start_console] on any file system, for a node with a console port:
    when the secret file could be made, the launch runs and the file is
    removed; when it could not, the [finally] clause reads a [pwfile] that
    is not bound, and its [UnboundLocalError] is what the caller gets. *)
Lemma on_disk_start_console_eq (d : disk) (m : machine) :
  truthy (port (self m)) = true ->
  on_disk.start_console d m =
  match secret_file_outcome d (password (self m)) m with
  | (Return _, _) =>
      (unit_outcome (env m (nexec m) [console_command m (pwfile m)]),
       advance 1 (secret_events (pwfile m)
                  ++ [EvExecute [console_command m (pwfile m)] shell_kw;
                      EvFile Unlink (pwfile m) None])
               m)
  | (Raise _, m') => (Raise UnboundLocalError, m')
  | (OutOfFuel, m') => (OutOfFuel, m')
  end.
Proof.
  intros Hport. unfold on_disk.start_console.
  erewrite bind_Return by reflexivity. rewrite Hport. cbn [negb].
  erewrite bind_Return by reflexivity.
  erewrite bind_Return by apply _get_console_pid_path_eq.
  unfold try_finally_local. rewrite on_disk_make_password_file_eq.
  unfold secret_file_outcome. cbv zeta.
  destruct (d Mkstemp (pwfile m)); [reflexivity|].
  destruct (d Fchmod (pwfile m)); [reflexivity|].
  destruct (d FWrite (pwfile m)); [reflexivity|].
  pose proof (pwfile_fresh m) as Hfresh.
  unfold try_finally.
  erewrite bind_Return by reflexivity.
  erewrite bind_Return by reflexivity.
  unfold bind at 1. rewrite execute_eq. msimpl.
  generalize dependent (pwfile m); intros p Hfresh.
  match goal with |- context [env m (nexec m) [?a]] =>
    change a with (console_command m p) end.
  destruct (env m (nexec m) [console_command m p]);
    cbn [outcome unit_outcome]; unfold ret, local;
    erewrite bind_Return by reflexivity;
    rewrite delete_if_exists_eq; unfold with_fs, advance, secret_events; msimpl;
    rewrite delete_insert_id by done;
    rewrite <- !app_assoc; reflexivity.
Qed.

Lemma start_console_eq (m : machine) :
  truthy (port (self m)) = true ->
  start_console m =
  (unit_outcome (env m (nexec m) [console_command m (pwfile m)]),
   advance 1 (secret_events (pwfile m)
              ++ [EvExecute [console_command m (pwfile m)] shell_kw;
                  EvFile Unlink (pwfile m) None])
           m).
Proof.
  intros Hport. unfold start_console.
  rewrite (on_disk_start_console_eq reliable m Hport).
  rewrite secret_file_outcome_accepts by apply accepts_reliable. reflexivity.
Qed.

Lemma outcome_not_out_of_fuel r : outcome r <> OutOfFuel.
Proof. destruct r; discriminate. Qed.

Lemma unit_outcome_not_out_of_fuel r : unit_outcome r <> OutOfFuel.
Proof. destruct r; discriminate. Qed.

Lemma secret_file_made_accepts (d : disk) (m : machine) :
  secret_file_made d m <-> accepts d (pwfile m).
Proof.
  unfold secret_file_made. split.
  - intros (p & m' & Hrun). rewrite on_disk_make_password_file_eq in Hrun.
    unfold secret_file_outcome in Hrun. cbv zeta in Hrun. unfold accepts.
    destruct (d Mkstemp (pwfile m)); [discriminate|].
    destruct (d Fchmod (pwfile m)); [discriminate|].
    destruct (d FWrite (pwfile m)); [discriminate|]. auto.
  - intros Hacc. rewrite on_disk_make_password_file_eq.
    rewrite secret_file_outcome_accepts by exact Hacc. eauto.
Qed.

(** C3, as the code has it.  On any file system, an invocation whose
    secret file has been made, be it [_exec_ipmitool] on any node or
    [start_console] on a node with a console port, made it with permission
    bits [0600], keeps them so while the secret is written and the command
    runs, and has removed the file when it is over, whether the command
    completed or raised. *)
Theorem secret_file_discipline (d : disk) (m : machine) (command : string) :
  secret_file_made d m ->
  secret_file_scoped (on_disk._exec_ipmitool d command) m
  /\ (truthy (port (self m)) = true ->
      secret_file_scoped (on_disk.start_console d) m).
Proof.
  intros Hmade. apply secret_file_made_accepts in Hmade.
  pose proof (pwfile_fresh m) as Hfresh. split.
  - exists (pwfile m). eexists.
    rewrite on_disk_exec_ipmitool_eq, secret_file_outcome_accepts by exact Hmade.
    cbn [fst snd]. msimpl.
    split; [exact Hfresh|]. split; [apply outcome_not_out_of_fuel|].
    unfold exec_events, secret_events. cbn [app].
    split; [reflexivity|].
    split.
    { repeat (apply Forall_cons; split;
              [cbn; first [exact I | split; [reflexivity|right; split; [discriminate|reflexivity]]]|]).
      destruct (answer command m); cbn [answer_events app];
        repeat (apply Forall_cons; split; [cbn; auto|]); apply Forall_nil;
        exact I. }
    split; [right; left; reflexivity|].
    split; [destruct (answer command m); reflexivity|].
    split; [exact Hfresh | reflexivity].
  - intros Hport. unfold secret_file_scoped.
    rewrite (on_disk_start_console_eq d m Hport).
    rewrite secret_file_outcome_accepts by exact Hmade.
    exists (pwfile m). eexists. cbn [fst snd]. msimpl.
    split; [exact Hfresh|]. split; [apply unit_outcome_not_out_of_fuel|].
    unfold secret_events. cbn [app].
    split; [reflexivity|].
    split.
    { repeat (apply Forall_cons; split;
              [cbn; first [exact I | split; [reflexivity|right; split; [discriminate|reflexivity]]]|]).
      repeat (apply Forall_cons; split; [cbn; auto|]). apply Forall_nil; exact I. }
    split; [right; left; reflexivity|].
    split; [reflexivity|].
    split; [exact Hfresh | reflexivity].
Qed.

(** C3, as the claim has it, fails.  [_make_password_file] has no clean-up
    of its own and [_exec_ipmitool] calls it before its [try]: on a file
    system that creates the file and then refuses the write, the status
    query ends with the [IOError], no command has run, and the secret
    file, which was not there before, is left behind. *)
Lemma secret_file_left_when_write_refused :
  fs (machine0 always_on) !! "/tmp/tmp" = None
  /\ fst (on_disk._exec_ipmitool disk_full "power status" (machine0 always_on))
     = Raise IOError
  /\ nexec (snd (on_disk._exec_ipmitool disk_full "power status"
                   (machine0 always_on))) = 0%nat
  /\ fs (snd (on_disk._exec_ipmitool disk_full "power status"
                (machine0 always_on))) !! "/tmp/tmp"
     = Some (mkFile 384 EmptyString)
  /\ ~ secret_file_scoped (on_disk._exec_ipmitool disk_full "power status")
        (machine0 always_on).
Proof.
  assert (fs (snd (on_disk._exec_ipmitool disk_full "power status"
                     (machine0 always_on))) !! "/tmp/tmp"
          = Some (mkFile 384 EmptyString)) as Hleft
    by (vm_compute; reflexivity).
  split; [vm_compute; reflexivity|].
  split; [vm_compute; reflexivity|].
  split; [vm_compute; reflexivity|].
  split; [exact Hleft|].
  intros (p & evs & _ & _ & _ & _ & _ & _ & _ & Hfs).
  rewrite Hfs in Hleft. vm_compute in Hleft. discriminate Hleft.
Qed.

(** ** The constructor *)

(** C5, as the code has it.  The constructor raises
    [InvalidParameterValue] exactly when one of the four required fields
    is [None]; otherwise it returns the controller that holds the fields
    of the record, with no state and no counter yet.  A field that is
    there is taken as it is, empty or not. *)
Theorem init_checks_presence (node : Node) :
  ((exists msg, __init__ node = Raise (InvalidParameterValue msg))
   <-> (id node = None \/ pm_address node = None
        \/ pm_user node = None \/ pm_password node = None))
  /\ ((exists o, __init__ node = Return o)
      <-> (is_Some (id node) /\ is_Some (pm_address node)
           /\ is_Some (pm_user node) /\ is_Some (pm_password node)))
  /\ (forall o, __init__ node = Return o ->
        id node = Some (node_id o) /\ pm_address node = Some (address o)
        /\ pm_user node = Some (user o) /\ pm_password node = Some (password o)
        /\ port o = terminal_port node /\ state o = None /\ retries o = None).
Proof.
  destruct node as [[i|] [a|] [u|] [pw|] tp]; cbn;
    (split; [split; [intros [msg H]; try discriminate; auto
                    | intros H; try (eexists; reflexivity);
                      destruct H as [H|[H|[H|H]]]; discriminate]|]);
    (split; [split; [intros [o H]; try discriminate; auto
                    | intros (H1 & H2 & H3 & H4);
                      try (eexists; reflexivity);
                      first [destruct H1 as [? H1]; discriminate
                            |destruct H2 as [? H2]; discriminate
                            |destruct H3 as [? H3]; discriminate
                            |destruct H4 as [? H4]; discriminate]]|]);
    intros o H; try discriminate; injection H as <-; cbn; auto 10.
Qed.

(** C5, as the claim has it, fails: a record whose management address is
    the empty string gets past the constructor, and the controller holds
    the empty address. *)
Lemma init_accepts_empty_field :
  pm_address node_empty_address = Some EmptyString
  /\ exists o, __init__ node_empty_address = Return o /\ address o = EmptyString.
Proof. split; [reflexivity|]. eexists; split; reflexivity. Qed.

(** ** The console *)

Lemma _get_console_pid_eq (m : machine) :
  _get_console_pid (node_id (self m)) m =
  (Return (console_pid m), advance 0 (pid_warning m) m).
Proof.
  assert (advance 0 [] m = m) as Hid.
  { destruct m; unfold advance; cbn. by rewrite app_nil_r. }
  unfold _get_console_pid, console_pid, pid_warning.
  erewrite bind_Return by apply _get_console_pid_path_eq.
  unfold bind at 1, os.path_exists, gets.
  destruct (fs m !! pid_path m) as [f|] eqn:Hf.
  - rewrite bool_decide_eq_true_2 by eauto.
    unfold bind at 1, os.read, bind, gets. rewrite Hf. unfold ret at 1.
    destruct (int (f_data f)) as [pid|].
    + unfold ret. by rewrite Hid.
    + reflexivity.
  - rewrite bool_decide_eq_false_2 by (intros [? ?]; discriminate).
    unfold ret. by rewrite Hid.
Qed.

(** [stop_console] on a record that calls for no signal: only the
    warning, if any, and the removal. *)
Lemma stop_console_no_signal (m : machine) :
  truthy (console_pid m) = false ->
  stop_console m =
  (Return tt,
   with_fs (delete (pid_path m) (fs m))
           (pid_warning m ++ [EvFile Unlink (pid_path m) None]) m).
Proof.
  intros Hpid. unfold stop_console.
  erewrite bind_Return by reflexivity.
  erewrite bind_Return by apply _get_console_pid_eq.
  rewrite Hpid. erewrite bind_Return by reflexivity.
  erewrite bind_Return by reflexivity.
  rewrite delete_if_exists_eq. unfold with_fs, advance. msimpl.
  rewrite <- app_assoc. reflexivity.
Qed.

(** [stop_console] on a record that holds the process id [pid]. *)
Lemma stop_console_signal (m : machine) (pid : Z) :
  console_pid m = Some pid -> pid <> 0 ->
  stop_console m =
  match env m (nexec m) (kill_args pid) with
  | ExecOk _ _ =>
      (Return tt,
       with_fs (delete (pid_path m) (fs m))
               [EvExecute (kill_args pid) kill_kw; EvFile Unlink (pid_path m) None]
               (advance 1 [] m))
  | ExecFail =>
      (Raise ProcessExecutionError, advance 1 [EvExecute (kill_args pid) kill_kw] m)
  end.
Proof.
  intros Hpid Hnz. unfold stop_console.
  erewrite bind_Return by reflexivity.
  erewrite bind_Return by apply _get_console_pid_eq.
  assert (pid_warning m = []) as Hw.
  { unfold pid_warning, console_pid in *.
    destruct (fs m !! pid_path m) as [f|]; [|reflexivity].
    rewrite Hpid. reflexivity. }
  assert (advance 0 [] m = m) as Hid.
  { destruct m; unfold advance; cbn. by rewrite app_nil_r. }
  rewrite Hpid, Hw, Hid. cbn [truthy].
  change (default 0 (Some pid)) with pid. fold (kill_args pid).
  rewrite (proj2 (Z.eqb_neq pid 0) Hnz). cbn [negb].
  unfold bind at 1, bind at 1. rewrite execute_eq.
  destruct (env m (nexec m) (kill_args pid)); cbn [outcome].
  - unfold ret at 1.
    erewrite bind_Return by reflexivity.
    rewrite delete_if_exists_eq. unfold with_fs, advance, pid_path. msimpl.
    rewrite !app_nil_r, <- !app_assoc. reflexivity.
  - reflexivity.
Qed.

Lemma truthy_Some (x : option Z) :
  truthy x = true -> exists pid, x = Some pid /\ pid <> 0.
Proof.
  destruct x as [pid|]; cbn; [|discriminate].
  intros H. exists pid. split; [reflexivity|].
  intros ->. discriminate.
Qed.

(** C9, as the code has it.  Without a pid record [stop_console] sends no
    signal, raises nothing and still goes through the removal of the
    record's path, which changes nothing.  With a record that holds a
    process id, and a termination command that completes, the signal is
    sent and the record is removed after it. *)
Theorem stop_console_removes_record (m : machine) :
  fs m !! pid_path m = None \/ kill_completes m ->
  exists m',
    stop_console m = (Return tt, m')
    /\ fs m' = delete (pid_path m) (fs m)
    /\ fs m' !! pid_path m = None
    /\ (fs m !! pid_path m = None ->
        nexec m' = nexec m
        /\ trace m' = trace m ++ [EvFile Unlink (pid_path m) None]
        /\ fs m' = fs m)
    /\ (forall pid, console_pid m = Some pid -> pid <> 0 ->
        trace m' = trace m ++ [EvExecute (kill_args pid) kill_kw;
                               EvFile Unlink (pid_path m) None]).
Proof.
  intros Hyp. destruct (truthy (console_pid m)) eqn:Htr.
  - destruct (truthy_Some _ Htr) as (pid & Hpid & Hnz).
    assert (kill_completes m) as Hkill.
    { destruct Hyp as [Hnone|Hkill]; [|exact Hkill].
      unfold console_pid in Hpid. rewrite Hnone in Hpid. discriminate. }
    rewrite (stop_console_signal m pid Hpid Hnz).
    specialize (Hkill pid).
    destruct (env m (nexec m) (kill_args pid)); [|done].
    eexists. split; [reflexivity|]. msimpl.
    split; [reflexivity|]. split; [apply lookup_delete_eq|].
    split.
    + intros Hnone. unfold console_pid in Hpid. rewrite Hnone in Hpid.
      discriminate.
    + intros pid' Hpid' _. rewrite Hpid in Hpid'. injection Hpid' as <-.
      rewrite app_nil_r. reflexivity.
  - rewrite (stop_console_no_signal m Htr).
    eexists. split; [reflexivity|]. msimpl.
    split; [reflexivity|]. split; [apply lookup_delete_eq|].
    split.
    + intros Hnone. unfold pid_warning. rewrite Hnone.
      split; [reflexivity|]. split; [reflexivity|]. by apply delete_id.
    + intros pid Hpid Hnz. rewrite Hpid in Htr. cbn in Htr.
      apply negb_false_iff, Z.eqb_eq in Htr. contradiction.
Qed.

(** C9, as the claim has it, fails: the record of a console that is no
    longer there makes the termination command fail, [stop_console] raises
    and the record stays. *)
Lemma stop_console_keeps_record_when_kill_fails :
  exists m',
    stop_console (machine_pid "4242" always_fails)
    = (Raise ProcessExecutionError, m')
    /\ fs m' !! pid_path (machine_pid "4242" always_fails)
       = Some (mkFile 420 "4242").
Proof. eexists. split; vm_compute; reflexivity. Qed.

(** C10.  A pid record whose content is not a number, or is the number 0,
    is treated as no record: no command is run, nothing is raised, the
    record is removed; content that is not a number is warned about. *)
Theorem stop_console_unusable_record (m : machine) (f : file) :
  fs m !! pid_path m = Some f ->
  int (f_data f) = None \/ int (f_data f) = Some 0 ->
  exists m',
    stop_console m = (Return tt, m')
    /\ nexec m' = nexec m
    /\ trace m' =
       trace m
       ++ match int (f_data f) with
          | None => [EvLog WARNING (no_pid_msg (pid_path m))]
          | Some _ => []
          end
       ++ [EvFile Unlink (pid_path m) None]
    /\ fs m' = delete (pid_path m) (fs m)
    /\ fs m' !! pid_path m = None.
Proof.
  intros Hf Hint.
  assert (truthy (console_pid m) = false) as Htr.
  { unfold console_pid. rewrite Hf. destruct Hint as [-> | ->]; reflexivity. }
  rewrite (stop_console_no_signal m Htr).
  eexists. split; [reflexivity|]. msimpl.
  split; [reflexivity|].
  split; [unfold pid_warning; rewrite Hf; reflexivity|].
  split; [reflexivity | apply lookup_delete_eq].
Qed.

(** ** The theorems at work on concrete machines *)

Lemma power_operation_exhausts_budget_witness :
  exists m' evs,
    run_power PowerOn 7 (machine0 always_off) = (Return tt, m')
    /\ trace m' = trace (machine0 always_off) ++ evs
    /\ state (self m') = Some states.ERROR
    /\ Z.of_nat (issued (command_of PowerOn) evs) = 5 + 1
    /\ (run_power PowerOn 7 ;; gets (fun m => state (self m)))
         (machine0 always_off)
       = (Return (Some states.ERROR), m').
Proof.
  apply (power_operation_exhausts_budget PowerOn (machine0 always_off) 7).
  - simpl. lia.
  - simpl. lia.
  - intros k args _ H. discriminate H.
  - intros k args err _ H. injection H as H _. vm_compute in H. discriminate H.
Defined.

Lemma power_operation_returns_state_witness :
  exists s m',
    run_operation Reboot 7 (machine0 always_off) = (Return (Some s), m')
    /\ state (self m') = Some s
    /\ (s = goal_of Reboot
        \/ s = states.ERROR
           /\ exists r', retries (self m') = Some r' /\ 5 < r').
Proof.
  apply (power_operation_returns_state Reboot (machine0 always_off) 7).
  - simpl. lia.
  - intros k args _ H. discriminate H.
Defined.

Lemma secret_file_discipline_witness :
  secret_file_scoped (on_disk._exec_ipmitool reliable "power status")
    (machine0 always_fails)
  /\ (truthy (port (self (machine0 always_fails))) = true ->
      secret_file_scoped (on_disk.start_console reliable) (machine0 always_fails)).
Proof.
  apply (secret_file_discipline reliable (machine0 always_fails) "power status").
  eexists _, _. vm_compute. reflexivity.
Defined.

Lemma is_power_exact_match_witness :
  exists b m',
    _is_power "off" (machine0 always_off) = (Return b, m')
    /\ (b = true
        <-> "Chassis Power is off" +:+ LF = "Chassis Power is " +:+ "off" +:+ LF).
Proof.
  apply (is_power_exact_match "off" (machine0 always_off)
           ("Chassis Power is off" +:+ LF) EmptyString).
  reflexivity.
Defined.

Lemma first_check_reports_target_witness :
  exists m' evs,
    run_power PowerOff 1 (machine0 always_off) = (Return tt, m')
    /\ trace m' = trace (machine0 always_off) ++ evs
    /\ evs = EvCallback
             :: exec_events (self (machine0 always_off))
                  (pwfile (machine0 always_off)) "power status"
                  (ExecOk (status_line (expected_of PowerOff)) EmptyString)
    /\ state (self m') = Some (success_of PowerOff)
    /\ retries (self m') = Some 0
    /\ nexec m' = S (nexec (machine0 always_off))
    /\ issued (command_of PowerOff) evs = 0%nat
    /\ iterations evs = 1%nat
    /\ (run_power PowerOff 1 ;; gets (fun m => state (self m)))
         (machine0 always_off)
       = (Return (Some (success_of PowerOff)), m').
Proof.
  apply (first_check_reports_target PowerOff (machine0 always_off) 1 EmptyString).
  - lia.
  - reflexivity.
Defined.

Lemma polling_terminates_witness :
  exists res m' evs,
    run_power PowerOff 7 (machine0 always_on) = (res, m')
    /\ res <> OutOfFuel
    /\ trace m' = trace (machine0 always_on) ++ evs
    /\ Z.of_nat (iterations evs) <= 5 + 2.
Proof.
  apply (polling_terminates PowerOff (machine0 always_on) 7).
  - simpl. lia.
  - simpl. lia.
Defined.

Lemma stop_console_removes_record_witness :
  exists m',
    stop_console (machine_pid "4242" always_off) = (Return tt, m')
    /\ fs m' !! pid_path (machine_pid "4242" always_off) = None.
Proof.
  destruct (stop_console_removes_record (machine_pid "4242" always_off))
    as (m' & Hrun & _ & Hgone & _).
  - right. intros pid H. discriminate H.
  - exists m'. split; [exact Hrun | exact Hgone].
Defined.

Lemma stop_console_unusable_record_witness :
  exists m',
    stop_console (machine_pid "no pid" always_fails) = (Return tt, m')
    /\ nexec m' = nexec (machine_pid "no pid" always_fails)
    /\ fs m' !! pid_path (machine_pid "no pid" always_fails) = None.
Proof.
  destruct (stop_console_unusable_record (machine_pid "no pid" always_fails)
              (mkFile 420 "no pid"))
    as (m' & Hrun & Hn & _ & _ & Hgone).
  - vm_compute. reflexivity.
  - left. vm_compute. reflexivity.
  - exists m'. split; [exact Hrun|]. split; [exact Hn | exact Hgone].
Defined.

(** ** The scenarios of the specification, run *)

(** Budget 0 and a status that never matches: one corrective command,
    final state [ERROR]. *)
Example budget_zero_one_attempt :
  fst (activate_node 2 (machine_budget 0 always_off)) = Return (Some states.ERROR)
  /\ issued "power on" (events_of (activate_node 2) (machine_budget 0 always_off))
     = 1%nat.
Proof. split; vm_compute; reflexivity. Qed.

(** A node that is off: the next boot device is set, the power-on loop
    issues one "power on", and the operation ends on [ACTIVE] once the
    status query answers "on". *)
Example activate_node_off_node :
  fst (activate_node 7 (machine0 comes_up)) = Return (Some states.ACTIVE)
  /\ issued "chassis bootdev pxe" (events_of (activate_node 7) (machine0 comes_up))
     = 1%nat
  /\ issued "power on" (events_of (activate_node 7) (machine0 comes_up)) = 1%nat
  /\ iterations (events_of (activate_node 7) (machine0 comes_up)) = 2%nat.
Proof. repeat split; vm_compute; reflexivity. Qed.

(** [reboot_node] on a node that answers "off" throughout: the power-off
    loop is done at once, the power-on loop uses up its budget. *)
Example reboot_node_stays_off :
  fst (reboot_node 7 (machine0 always_off)) = Return (Some states.ERROR)
  /\ issued "power off" (events_of (reboot_node 7) (machine0 always_off)) = 0%nat
  /\ issued "power on" (events_of (reboot_node 7) (machine0 always_off)) = 6%nat.
Proof. repeat split; vm_compute; reflexivity. Qed.

(** The looping call gives up only when the model's fuel is short of the
    invocations the budget allows. *)
Example short_fuel :
  fst (_power_on 6 (machine0 always_off)) = OutOfFuel
  /\ fst (_power_on 7 (machine0 always_off)) = Return tt.
Proof. split; vm_compute; reflexivity. Qed.

Example stop_console_without_record :
  events_of stop_console (machine0 always_fails)
  = [EvFile Unlink "/var/lib/ironic/baremetal/console/7.pid" None]
  /\ fst (stop_console (machine0 always_fails)) = Return tt.
Proof. split; vm_compute; reflexivity. Qed.

Example stop_console_with_record :
  events_of stop_console (machine_pid "4242" always_off)
  = [EvExecute ["kill"; "-TERM"; "4242"] kill_kw;
     EvFile Unlink "/var/lib/ironic/baremetal/console/7.pid" None].
Proof. vm_compute. reflexivity. Qed.

Example start_console_command :
  events_of start_console (machine0 always_off)
  = [EvFile Mkstemp "/tmp/tmp" (Some 384); EvFile Fchmod "/tmp/tmp" (Some 384);
     EvFile FWrite "/tmp/tmp" (Some 384);
     EvExecute
       ["'shellinaboxd' '-t' '-p' '4200' '--background=/var/lib/ironic/baremetal/console/7.pid' '-s' '/:1000:1000:HOME:ipmitool -H 10.0.0.5 -I lanplus -U admin -f /tmp/tmp sol activate' </dev/null >/dev/null 2>&1"]
       shell_kw;
     EvFile Unlink "/tmp/tmp" None].
Proof. vm_compute. reflexivity. Qed.

Example shell_quote_escapes : shell_quote "it's" = "'it'\''s'".
Proof. reflexivity. Qed.

Example int_examples :
  int "4242" = Some 4242 /\ int (" -12" +:+ LF) = Some (-12)
  /\ int "007" = Some 7 /\ int "12a" = None /\ int EmptyString = None
  /\ int "+" = None /\ int "1 2" = None.
Proof. repeat split; reflexivity. Qed.

Example os_path_join_examples :
  os_path.join "/var/run" "7.pid" = "/var/run/7.pid"
  /\ os_path.join "/var/run/" "7.pid" = "/var/run/7.pid"
  /\ os_path.join "/var/run" "/7.pid" = "/7.pid"
  /\ os_path.join EmptyString "7.pid" = "7.pid".
Proof. repeat split; reflexivity. Qed.

(** * The rest of the driver *)

(** ** What a polling loop keeps *)

Lemma same_node_refl o : same_node o o.
Proof. repeat split. Qed.

Lemma exec_events_ok (op : power_op) (o o' : IPMI) (p c : string) (a : exec_result) :
  address o' = address o -> user o' = user o ->
  c = "power status" \/ c = command_of op ->
  Forall (power_event_ok op o) (exec_events o' p c a).
Proof.
  intros Ha Hu Hc. unfold exec_events, secret_events.
  repeat (apply Forall_cons; split; [exact I|]).
  apply Forall_app; split.
  - apply Forall_cons; split; [|apply Forall_nil; exact I].
    unfold power_event_ok, ipmitool_args. cbn [take drop app firstn skipn].
    rewrite Ha, Hu. split; [reflexivity|]. split; [|reflexivity].
    destruct Hc as [-> | ->]; [left; reflexivity | right; reflexivity].
  - apply Forall_app; split.
    + destruct a; repeat constructor.
    + repeat constructor.
Qed.

Lemma failure_events_ok op o a : Forall (power_event_ok op o) (failure_events op a).
Proof. destruct a; repeat constructor. Qed.

(** One invocation of the callback: the frame, and the counter. *)
Lemma callback_frame (op : power_op) (r : Z) (m : machine) :
  retries (self m) = Some r ->
  exists res m' evs,
    callback_of op (emit EvCallback m) = (res, m')
    /\ power_frame op m m' (EvCallback :: evs)
    /\ retries (self m')
       = Some (r + Z.of_nat (issued (command_of op) (EvCallback :: evs)))
    /\ (issued (command_of op) (EvCallback :: evs) = 0%nat
        \/ issued (command_of op) (EvCallback :: evs) = 1%nat
           /\ r <= ipmi_power_retry (CONF m)).
Proof.
  intros Hr. rewrite (callback_eq op r) by exact Hr.
  unfold callback_outcome, power_frame.
  change (issued (command_of op) (EvCallback :: ?l))
    with (issued (command_of op) l).
  destruct (answer "power status" (emit EvCallback m)) as [out err|].
  - destruct (String.eqb out _).
    + eexists _, _, _; split; [reflexivity|]. msimpl.
      rewrite <- app_assoc. split.
      { split; [reflexivity|]. repeat (split; [reflexivity|]).
        split; [unfold same_node; msimpl; repeat split|].
        apply Forall_cons; split; [exact I|]. apply exec_events_ok; auto. }
      rewrite issued_status, Z.add_0_r. auto.
    + destruct (Z.ltb _ r) eqn:Hlt.
      * eexists _, _, _; split; [reflexivity|]. msimpl.
        rewrite <- app_assoc. split.
        { split; [reflexivity|]. repeat (split; [reflexivity|]).
          split; [unfold same_node; msimpl; repeat split|].
          apply Forall_cons; split; [exact I|]. apply exec_events_ok; auto. }
        rewrite issued_status, Z.add_0_r. auto.
      * apply Z.ltb_ge in Hlt.
        eexists _, _, _; split; [reflexivity|]. msimpl.
        rewrite <- !app_assoc. split.
        { split; [reflexivity|]. repeat (split; [reflexivity|]).
          split; [unfold same_node; msimpl; repeat split|].
          apply Forall_cons; split; [exact I|].
          apply Forall_app; split; [apply exec_events_ok; auto|].
          apply Forall_app; split;
            [apply exec_events_ok; auto | apply failure_events_ok]. }
        rewrite !issued_app, issued_status, issued_command,
          issued_failure_events.
        split; [reflexivity | right; split; [reflexivity | exact Hlt]].
  - eexists _, _, _; split; [reflexivity|]. msimpl.
    rewrite <- app_assoc. split.
    { split; [reflexivity|]. repeat (split; [reflexivity|]).
      split; [unfold same_node; msimpl; repeat split|].
      apply Forall_cons; split; [exact I|]. apply exec_events_ok; auto. }
    rewrite issued_status, Z.add_0_r. auto.
Qed.

Lemma power_event_ok_same_node op o o' e :
  same_node o o' -> power_event_ok op o' e -> power_event_ok op o e.
Proof.
  intros (_ & Ha & Hu & _) H. destruct e; try exact I.
  unfold power_event_ok in *. rewrite <- Ha, <- Hu. exact H.
Qed.

Lemma same_node_trans o1 o2 o3 :
  same_node o1 o2 -> same_node o2 o3 -> same_node o1 o3.
Proof.
  unfold same_node. intros (? & ? & ? & ? & ?) (? & ? & ? & ? & ?).
  repeat split; congruence.
Qed.

Lemma power_frame_refl op m : power_frame op m m [].
Proof.
  unfold power_frame. rewrite app_nil_r.
  repeat (split; [reflexivity|]). split; [apply same_node_refl | constructor].
Qed.

Lemma power_frame_trans op m1 m2 m3 evs1 evs2 :
  power_frame op m1 m2 evs1 -> power_frame op m2 m3 evs2 ->
  power_frame op m1 m3 (evs1 ++ evs2).
Proof.
  intros (Ht1 & He1 & Hc1 & Hf1 & Hu1 & Hg1 & Hn1 & Hok1)
         (Ht2 & He2 & Hc2 & Hf2 & Hu2 & Hg2 & Hn2 & Hok2).
  unfold power_frame.
  split; [rewrite Ht2, Ht1, app_assoc; reflexivity|].
  repeat (split; [congruence|]).
  split; [eapply same_node_trans; eassumption|].
  apply Forall_app; split; [exact Hok1|].
  eapply Forall_impl; [exact Hok2|].
  intros e. apply power_event_ok_same_node. exact Hn1.
Qed.

(** A polling loop, whatever the commands answer and however long it is
    followed: the frame holds, the counter has gone up by the number of
    corrective commands, and it has not passed the budget by more than
    one. *)
Lemma loop_frame (op : power_op) (fuel : nat) :
  forall (m : machine) (r : Z),
    retries (self m) = Some r ->
    exists res m' evs,
      loopingcall.FixedIntervalLoopingCall fuel (callback_of op) m = (res, m')
      /\ power_frame op m m' evs
      /\ retries (self m') = Some (r + Z.of_nat (issued (command_of op) evs))
      /\ r + Z.of_nat (issued (command_of op) evs)
         <= Z.max r (ipmi_power_retry (CONF m) + 1).
Proof.
  induction fuel as [|fuel IH]; intros m r Hr.
  - exists OutOfFuel, m, []. split; [reflexivity|].
    split; [apply power_frame_refl|]. cbn. rewrite Z.add_0_r.
    split; [exact Hr | lia].
  - cbn [loopingcall.FixedIntervalLoopingCall].
    destruct (callback_frame op r m Hr)
      as (res & m1 & evs1 & -> & Hfr & Hr1 & Hiss).
    assert (r + Z.of_nat (issued (command_of op) (EvCallback :: evs1))
            <= Z.max r (ipmi_power_retry (CONF m) + 1)) as Hb by
      (destruct Hiss as [-> | [-> ?]]; lia).
    destruct res as [[]|e|].
    + destruct (IH m1 _ Hr1) as (res & m' & evs' & Hrun & Hfr' & Hr' & Hb').
      exists res, m', ((EvCallback :: evs1) ++ evs').
      split; [exact Hrun|].
      split; [eapply power_frame_trans; eassumption|].
      destruct Hfr as (_ & _ & Hc & _).
      rewrite issued_app, Nat2Z.inj_add, Z.add_assoc.
      split; [exact Hr'|]. rewrite Hc in Hb'. lia.
    + destruct e; eexists _, m1, _; (split; [reflexivity|]);
        (split; [exact Hfr|]); (split; [exact Hr1 | exact Hb]).
    + eexists _, m1, _; (split; [reflexivity|]);
        (split; [exact Hfr|]); (split; [exact Hr1 | exact Hb]).
Qed.

(** ** [activate_node] on a node that is already active *)

(** The first invocation of the callback by a polling loop whose counter
    stands at [r]: the status query is made; its failure ends the loop
    with that error; the target state ends it with the success state
    recorded; any other answer, while the budget allows, is followed by
    the corrective command. *)
Lemma loop_first_iteration (op : power_op) (fuel : nat) (m : machine) (r : Z) :
  (1 <= fuel)%nat ->
  retries (self m) = Some r ->
  exists res m' rest,
    loopingcall.FixedIntervalLoopingCall fuel (callback_of op) m = (res, m')
    /\ trace m' =
       trace m
       ++ EvCallback
          :: exec_events (self m) (pwfile m) "power status"
               (answer "power status" m)
          ++ rest
    /\ (answer "power status" m = ExecFail ->
        res = Raise ProcessExecutionError /\ rest = [])
    /\ (forall err,
          answer "power status" m = ExecOk (status_line (expected_of op)) err ->
          res = Return tt /\ rest = []
          /\ state (self m') = Some (success_of op)
          /\ nexec m' = S (nexec m))
    /\ (forall out err,
          answer "power status" m = ExecOk out err ->
          out <> status_line (expected_of op) ->
          r <= ipmi_power_retry (CONF m) ->
          exists rest',
            rest = exec_events (self m) (pwfile m) (command_of op)
                     (env m (S (nexec m))
                        (ipmitool_args (self m) (pwfile m) (command_of op)))
                   ++ rest').
Proof.
  intros Hfuel Hr. destruct fuel as [|fuel]; [lia|].
  cbn [loopingcall.FixedIntervalLoopingCall].
  rewrite (callback_eq op r) by exact Hr.
  unfold callback_outcome.
  change (answer "power status" (emit EvCallback m))
    with (answer "power status" m).
  destruct (answer "power status" m) as [out err|] eqn:Ha.
  - destruct (String.eqb out (status_line (expected_of op))) eqn:Hout.
    + eexists _, _, []. split; [reflexivity|]. msimpl.
      split; [rewrite app_nil_r, <- app_assoc; reflexivity|].
      split; [discriminate|].
      split; [intros err' _; repeat split|].
      intros out' err' Heq Hne. injection Heq as <- <-.
      apply String.eqb_eq in Hout. contradiction.
    + destruct (Z.ltb (ipmi_power_retry (CONF (emit EvCallback m))) r) eqn:Hlt.
      * eexists _, _, []. split; [reflexivity|]. msimpl.
        split; [rewrite app_nil_r, <- app_assoc; reflexivity|].
        split; [discriminate|].
        split.
        { intros err' Heq. injection Heq as -> _.
          rewrite String.eqb_refl in Hout. discriminate Hout. }
        intros out' err' _ _ Hle. apply Z.ltb_lt in Hlt. msimpl. lia.
      * match goal with
        | |- context [loopingcall.FixedIntervalLoopingCall fuel _ ?m3] =>
            destruct (loop_frame op fuel m3 (r + 1) eq_refl)
              as (res & m' & evs' & Hrun & Hfr & _)
        end.
        destruct Hfr as (Ht & _).
        eexists res, m', _. split; [exact Hrun|].
        split.
        { rewrite Ht. msimpl. rewrite <- !app_assoc. cbn [app]. reflexivity. }
        split; [discriminate|].
        split.
        { intros err' Heq. injection Heq as -> _.
          rewrite String.eqb_refl in Hout. discriminate Hout. }
        intros out' err' _ _ _. eexists. reflexivity.
  - eexists _, _, []. split; [reflexivity|]. msimpl.
    split; [rewrite app_nil_r, <- app_assoc; reflexivity|].
    split; [auto|].
    split; [discriminate | discriminate].
Qed.

(** C6.  [activate_node] on a node that reports power on and whose recorded
    state is [ACTIVE] does not return early.  The warning is logged; the
    next boot device is set; the power-on loop starts with the counter at
    zero and makes its own status query, the third command of the
    operation; and what [activate_node] hands back is what that query
    leads to: [ACTIVE] at once when the node still reports power on, the
    error when the query fails, and otherwise the corrective command is
    issued and the loop goes on to the state it records. *)
Theorem activate_node_no_short_circuit
  (m : machine) (fuel : nat) (err : string) :
  (Z.to_nat (ipmi_power_retry (CONF m) + 1) + 1 <= fuel)%nat ->
  state (self m) = Some states.ACTIVE ->
  answer "power status" m = ExecOk (status_line "on") err ->
  exists res m' rest,
    activate_node fuel m = (res, m')
    /\ res <> OutOfFuel
    /\ trace m' =
       trace m
       ++ exec_events (self m) (pwfile m) "power status"
            (ExecOk (status_line "on") err)
       ++ [EvLog WARNING (already_active_msg (address (self m)))]
       ++ exec_events (self m) (pwfile m) "chassis bootdev pxe"
            (answer "chassis bootdev pxe" (after_warning err m))
       ++ pxe_failure_events (answer "chassis bootdev pxe" (after_warning err m))
       ++ EvCallback
          :: exec_events (self m) (pwfile m) "power status" (first_poll err m)
          ++ rest
    /\ retries (self m') = Some (Z.of_nat (issued "power on" rest))
    /\ (forall err',
          first_poll err m = ExecOk (status_line "on") err' ->
          res = Return (Some states.ACTIVE) /\ rest = []
          /\ state (self m') = Some states.ACTIVE
          /\ nexec m' = (3 + nexec m)%nat)
    /\ (first_poll err m = ExecFail ->
        res = Raise ProcessExecutionError /\ rest = [])
    /\ (forall out err',
          first_poll err m = ExecOk out err' ->
          out <> status_line "on" ->
          0 <= ipmi_power_retry (CONF m) ->
          exists rest',
            rest = exec_events (self m) (pwfile m) "power on"
                     (env m (3 + nexec m)%nat
                        (ipmitool_args (self m) (pwfile m) "power on"))
                   ++ rest')
    /\ (status_answers (env m) ->
        exists s,
          res = Return (Some s) /\ state (self m') = Some s
          /\ (s = states.ACTIVE
              \/ s = states.ERROR
                 /\ exists r', retries (self m') = Some r'
                               /\ ipmi_power_retry (CONF m) < r')).
Proof.
  intros Hfuel Hst Ha. unfold first_poll.
  rewrite activate_node_eq, Ha. unfold warning_events.
  rewrite String.eqb_refl, Hst, bool_decide_eq_true_2 by reflexivity.
  cbn [andb]. fold (after_warning err m).
  erewrite bind_Return by apply _set_pxe_for_next_boot_eq.
  set (m1 := after_pxe (after_warning err m)).
  set (m0 := set_self (set_retries (Some 0) (self m1)) m1).
  pose proof (run_power_eq PowerOn fuel m1) as Hpow.
  change (run_power PowerOn fuel m1) with (_power_on fuel m1) in Hpow.
  fold m0 in Hpow.
  destruct (loop_first_iteration PowerOn fuel m0 0)
    as (res0 & m' & rest & Hrun & Ht & Hfail & Hon & Hcont);
    [lia | reflexivity |].
  destruct (loop_frame PowerOn fuel m0 0 eq_refl)
    as (res1 & m1' & evs & Hrun1 & Hfr & Hr & _).
  rewrite Hrun in Hrun1. injection Hrun1 as <- <-.
  destruct (power_spec PowerOn m1 fuel Hfuel)
    as (res2 & m2' & evs2 & Hrun2 & _ & _ & _ & _ & _ & Hcase).
  change (run_power PowerOn fuel m1) with (_power_on fuel m1) in Hrun2.
  rewrite Hpow, Hrun in Hrun2. injection Hrun2 as <- <-.
  assert (retries (self m') = Some (Z.of_nat (issued "power on" rest))) as Hr'.
  { destruct Hfr as (Ht' & _). rewrite Ht in Ht'.
    apply app_inv_head in Ht'. subst evs. rewrite Hr.
    change (EvCallback :: ?l) with ([EvCallback] ++ l).
    rewrite !issued_app, (issued_status PowerOn). reflexivity. }
  assert (trace m' =
          trace m
          ++ exec_events (self m) (pwfile m) "power status"
               (ExecOk (status_line "on") err)
          ++ [EvLog WARNING (already_active_msg (address (self m)))]
          ++ exec_events (self m) (pwfile m) "chassis bootdev pxe"
               (answer "chassis bootdev pxe" (after_warning err m))
          ++ pxe_failure_events
               (answer "chassis bootdev pxe" (after_warning err m))
          ++ EvCallback
             :: exec_events (self m) (pwfile m) "power status"
                  (answer "power status" m1)
             ++ rest) as Ht'.
  { rewrite Ht. subst m0 m1. unfold after_pxe, after_warning. msimpl.
    rewrite <- !app_assoc. reflexivity. }
  unfold bind at 1. rewrite Hpow, Hrun.
  destruct Hcase as [[-> Hstate] | [-> (k & args & Hargs & Hk)]].
  - exists (Return (state (self m'))), m', rest.
    split; [reflexivity|]. split; [discriminate|].
    split; [exact Ht'|]. split; [exact Hr'|].
    split.
    { intros err' Heq. destruct (Hon err' Heq) as (_ & -> & Hs & Hn).
      rewrite Hs. repeat split. rewrite Hn. reflexivity. }
    split.
    { intros Heq. destruct (Hfail Heq) as (Hres & _). discriminate Hres. }
    split.
    { intros out err' Heq Hne Hle. exact (Hcont out err' Heq Hne Hle). }
    intros _. destruct Hstate as [Hs | [Hs Hover]].
    + exists states.ACTIVE. rewrite Hs. auto.
    + exists states.ERROR. rewrite Hs. auto.
  - exists (Raise ProcessExecutionError), m', rest.
    split; [reflexivity|]. split; [discriminate|].
    split; [exact Ht'|]. split; [exact Hr'|].
    split.
    { intros err' Heq. destruct (Hon err' Heq) as (Hres & _). discriminate Hres. }
    split.
    { intros Heq. destruct (Hfail Heq) as (_ & ->). auto. }
    split.
    { intros out err' Heq Hne Hle. exact (Hcont out err' Heq Hne Hle). }
    intros Hans. destruct (Hans k args Hargs Hk).
Qed.

Lemma activate_node_no_short_circuit_witness :
  exists m',
    activate_node 7 machine_active = (Return (Some states.ACTIVE), m')
    /\ nexec m' = 3%nat
    /\ retries (self m') = Some 0
    /\ trace m' =
       trace machine_active
       ++ exec_events (self machine_active) (pwfile machine_active)
            "power status" (ExecOk (status_line "on") EmptyString)
       ++ [EvLog WARNING (already_active_msg (address (self machine_active)))]
       ++ exec_events (self machine_active) (pwfile machine_active)
            "chassis bootdev pxe"
            (answer "chassis bootdev pxe" (after_warning EmptyString machine_active))
       ++ pxe_failure_events
            (answer "chassis bootdev pxe" (after_warning EmptyString machine_active))
       ++ EvCallback
          :: exec_events (self machine_active) (pwfile machine_active)
               "power status" (first_poll EmptyString machine_active)
          ++ [].
Proof.
  destruct (activate_node_no_short_circuit machine_active 7 EmptyString)
    as (res & m' & rest & Hrun & _ & Ht & Hr & Hon & _).
  - simpl. lia.
  - reflexivity.
  - reflexivity.
  - destruct (Hon EmptyString eq_refl) as (-> & -> & _ & Hn).
    exists m'. split; [exact Hrun|]. split; [exact Hn|].
    split; [exact Hr | exact Ht].
Defined.

(** ** What the power operations keep *)

Lemma world_frame_refl m : world_frame m m.
Proof.
  unfold world_frame. repeat (split; [reflexivity|]).
  split; [apply same_node_refl|]. exists [].
  split; [by rewrite app_nil_r | constructor].
Qed.

Lemma ipmitool_event_ok_same_node o o' e :
  same_node o o' -> ipmitool_event_ok o' e -> ipmitool_event_ok o e.
Proof.
  intros (_ & Ha & Hu & _) H. destruct e; try exact I.
  unfold ipmitool_event_ok in *. rewrite <- Ha, <- Hu. exact H.
Qed.

Lemma world_frame_trans m1 m2 m3 :
  world_frame m1 m2 -> world_frame m2 m3 -> world_frame m1 m3.
Proof.
  intros (He1 & Hc1 & Hu1 & Hg1 & Hn1 & evs1 & Ht1 & Hok1)
         (He2 & Hc2 & Hu2 & Hg2 & Hn2 & evs2 & Ht2 & Hok2).
  unfold world_frame. repeat (split; [congruence|]).
  split; [eapply same_node_trans; eassumption|].
  exists (evs1 ++ evs2). split; [rewrite Ht2, Ht1, app_assoc; reflexivity|].
  apply Forall_app; split; [exact Hok1|].
  eapply Forall_impl; [exact Hok2|]. intros e.
  apply ipmitool_event_ok_same_node. exact Hn1.
Qed.

Lemma world_frame_advance k evs m :
  Forall (ipmitool_event_ok (self m)) evs -> world_frame m (advance k evs m).
Proof.
  intros Hok. unfold world_frame. msimpl. repeat (split; [reflexivity|]).
  split; [apply same_node_refl|]. exists evs. split; [reflexivity | exact Hok].
Qed.

Lemma exec_events_ipmitool (o : IPMI) (p c : string) (a : exec_result) :
  Forall (ipmitool_event_ok o) (exec_events o p c a).
Proof.
  unfold exec_events, secret_events.
  repeat (apply Forall_cons; split; [exact I|]).
  apply Forall_app; split.
  - apply Forall_cons; split; [|apply Forall_nil; exact I].
    split; reflexivity.
  - apply Forall_app; split; [destruct a; repeat constructor | repeat constructor].
Qed.

Lemma keeps_ret {A} (a : A) : keeps (ret a).
Proof. intros m. apply world_frame_refl. Qed.

Lemma keeps_raise {A} (e : exn) : keeps (@raise A e).
Proof. intros m. apply world_frame_refl. Qed.

Lemma keeps_gets {A} (f : machine -> A) : keeps (gets f).
Proof. intros m. apply world_frame_refl. Qed.

Lemma keeps_bind {A B} (c : M A) (k : A -> M B) :
  keeps c -> (forall a, keeps (k a)) -> keeps (bind c k).
Proof.
  intros Hc Hk m. unfold bind. specialize (Hc m).
  destruct (c m) as [[a|e|] m1]; cbn [snd] in *; [|exact Hc|exact Hc].
  eapply world_frame_trans; [exact Hc | apply Hk].
Qed.

Lemma keeps_try_except {A} (c h : M A) : keeps c -> keeps h -> keeps (try_except c h).
Proof.
  intros Hc Hh m. unfold try_except. specialize (Hc m).
  destruct (c m) as [[a|e|] m1]; cbn [snd] in *; [exact Hc| |exact Hc].
  eapply world_frame_trans; [exact Hc | apply Hh].
Qed.

Lemma keeps_log (lvl : level) (msg : string) : keeps (modify (emit (EvLog lvl msg))).
Proof.
  intros m. unfold modify, world_frame. msimpl.
  repeat (split; [reflexivity|]). split; [apply same_node_refl|].
  eexists. split; [reflexivity | repeat constructor].
Qed.

Lemma keeps__exec_ipmitool command : keeps (_exec_ipmitool command).
Proof.
  intros m. rewrite _exec_ipmitool_eq. apply world_frame_advance.
  apply exec_events_ipmitool.
Qed.

Lemma keeps__is_power expected : keeps (_is_power expected).
Proof.
  apply keeps_bind; [apply keeps__exec_ipmitool | intros a; apply keeps_ret].
Qed.

Lemma keeps__set_pxe_for_next_boot : keeps _set_pxe_for_next_boot.
Proof.
  intros m. rewrite _set_pxe_for_next_boot_eq. apply world_frame_advance.
  apply Forall_app; split; [apply exec_events_ipmitool|].
  destruct (answer "chassis bootdev pxe" m); repeat constructor.
Qed.

Lemma power_frame_world op m m' evs : power_frame op m m' evs -> world_frame m m'.
Proof.
  intros (Ht & He & Hc & Hf & Hu & Hg & Hn & Hok). unfold world_frame.
  repeat (split; [assumption|]). exists evs. split; [exact Ht|].
  eapply Forall_impl; [exact Hok|].
  intros [args kw| | |] H; try exact I.
  destruct H as (H1 & _ & H2). split; assumption.
Qed.

Lemma keeps_run_power op fuel : keeps (run_power op fuel).
Proof.
  intros m. rewrite run_power_eq.
  destruct (loop_frame op fuel (set_self (set_retries (Some 0) (self m)) m) 0
              eq_refl) as (res & m' & evs & -> & Hfr & _).
  cbn [snd]. apply power_frame_world in Hfr.
  eapply world_frame_trans; [|exact Hfr].
  unfold world_frame. msimpl. repeat (split; [reflexivity|]).
  split; [repeat split|]. exists []. split; [by rewrite app_nil_r | constructor].
Qed.

Lemma keeps_run_operation o fuel : keeps (run_operation o fuel).
Proof.
  destruct o; cbn [run_operation];
    [unfold activate_node | unfold reboot_node | unfold deactivate_node].
  - apply keeps_bind; [apply keeps__is_power|]. intros on.
    apply keeps_bind; [apply keeps_gets|]. intros o.
    apply keeps_bind.
    { destruct (on && _); [apply keeps_log | apply keeps_ret]. }
    intros _. apply keeps_bind; [apply keeps__set_pxe_for_next_boot|].
    intros _. apply keeps_bind; [apply (keeps_run_power PowerOn)|].
    intros _. apply keeps_gets.
  - apply keeps_bind; [apply (keeps_run_power PowerOff)|].
    intros _. apply keeps_bind; [apply keeps__set_pxe_for_next_boot|].
    intros _. apply keeps_bind; [apply (keeps_run_power PowerOn)|].
    intros _. apply keeps_gets.
  - apply keeps_bind; [apply (keeps_run_power PowerOff)|].
    intros _. apply keeps_gets.
Qed.

(** X1.  Whatever the commands answer and however it ends (returning,
    raising, or cut short), a power operation keeps the node the
    controller is for and the configuration, and every command it has run
    is an [ipmitool] invocation over [lanplus] at the address and for the
    user of that node, with three attempts: it sends no signal and starts
    no shell. *)
Theorem power_operations_run_only_ipmitool
  (o : operation) (fuel : nat) (m : machine) :
  same_node (self m) (self (snd (run_operation o fuel m)))
  /\ CONF (snd (run_operation o fuel m)) = CONF m
  /\ exists evs,
       trace (snd (run_operation o fuel m)) = trace m ++ evs
       /\ Forall (ipmitool_event_ok (self m)) evs.
Proof.
  destruct (keeps_run_operation o fuel m) as (_ & Hc & _ & _ & Hn & Ht).
  auto.
Qed.

(** X2.  The retry counter counts the corrective commands: whenever and
    however a polling loop stops, [self.retries] is the number of times
    the corrective command has been issued since the loop started, and
    that is at most the budget plus one. *)
Theorem retry_counter_counts_attempts (op : power_op) (fuel : nat) (m : machine) :
  exists res m' evs,
    run_power op fuel m = (res, m')
    /\ trace m' = trace m ++ evs
    /\ retries (self m') = Some (Z.of_nat (issued (command_of op) evs))
    /\ Z.of_nat (issued (command_of op) evs)
       <= Z.max 0 (ipmi_power_retry (CONF m) + 1).
Proof.
  rewrite run_power_eq.
  destruct (loop_frame op fuel (set_self (set_retries (Some 0) (self m)) m) 0
              eq_refl) as (res & m' & evs & Hrun & Hfr & Hr & Hb).
  exists res, m', evs. split; [exact Hrun|].
  destruct Hfr as (Ht & _). split; [exact Ht|].
  rewrite Z.add_0_l in *. split; [exact Hr | exact Hb].
Qed.

Lemma issued_none_of_ok (op : power_op) (o : IPMI) (c : string) (evs : list event) :
  split " " c <> ["power"; "status"] ->
  split " " c <> split " " (command_of op) ->
  Forall (power_event_ok op o) evs ->
  issued c evs = 0%nat.
Proof.
  intros Hs Hc Hok. induction Hok as [|e evs He _ IH]; [reflexivity|].
  unfold issued in *. cbn [count]. rewrite IH.
  destruct e as [args kw| | |]; cbn [is_command]; try reflexivity.
  destruct He as (_ & Hd & _).
  rewrite bool_decide_eq_false_2; [reflexivity|].
  destruct Hd as [-> | ->]; congruence.
Qed.

(** X3.  A polling loop runs no command but its own two.  Every command
    of [_power_on] (of [_power_off]) is [ipmitool -I lanplus -H <address>
    -U <user> -f <file>] followed by [power status] or by [power on] (by
    [power off]), run with three attempts; in particular it never issues
    the opposite command and never touches the boot device. *)
Theorem polling_loop_commands (op : power_op) (fuel : nat) (m : machine) :
  exists evs,
    trace (snd (run_power op fuel m)) = trace m ++ evs
    /\ Forall (power_event_ok op (self m)) evs
    /\ issued (command_of (opposite op)) evs = 0%nat
    /\ issued "chassis bootdev pxe" evs = 0%nat.
Proof.
  rewrite run_power_eq.
  destruct (loop_frame op fuel (set_self (set_retries (Some 0) (self m)) m) 0
              eq_refl) as (res & m' & evs & -> & Hfr & _).
  destruct Hfr as (Ht & _ & _ & _ & _ & _ & _ & Hok).
  exists evs. cbn [snd]. split; [exact Ht|].
  assert (Forall (power_event_ok op (self m)) evs) as Hok'.
  { eapply Forall_impl; [exact Hok|]. intros e.
    apply power_event_ok_same_node. repeat split. }
  split; [exact Hok'|].
  split; (eapply issued_none_of_ok; [| |exact Hok']);
    destruct op; vm_compute; discriminate.
Qed.

(** X4.  [is_power_on] is one status query and nothing else: one command
    is run, the controller object and the file system are untouched, the
    looping call is not involved; and when that command fails the failure
    is raised, not turned into [False]. *)
Theorem is_power_on_single_query (m : machine) :
  exists res m',
    is_power_on m = (res, m')
    /\ self m' = self m /\ fs m' = fs m /\ nexec m' = S (nexec m)
    /\ issued "power status" (events_of is_power_on m) = 1%nat
    /\ iterations (events_of is_power_on m) = 0%nat
    /\ (res = Raise ProcessExecutionError
        <-> answer "power status" m = ExecFail)
    /\ (res = Return true
        <-> exists err, answer "power status" m
                        = ExecOk ("Chassis Power is on" +:+ LF) err).
Proof.
  unfold events_of, is_power_on. rewrite _is_power_eq.
  eexists _, _. split; [reflexivity|]. cbn [snd]. msimpl.
  repeat (split; [reflexivity|]).
  rewrite drop_app_length.
  rewrite issued_exec_events, iterations_exec_events.
  repeat (split; [reflexivity|]).
  destruct (answer "power status" m) as [out err|]; split.
  - split; [discriminate | discriminate].
  - split.
    + intros H. injection H as H. apply String.eqb_eq in H. subst out. eauto.
    + intros [err' H]. injection H as -> _.
      unfold status_line. rewrite String.eqb_refl. reflexivity.
  - split; reflexivity.
  - split; [discriminate | intros [? ?]; discriminate].
Qed.

(** X5.  Setting the next boot device is best effort: whatever
    [ipmitool chassis bootdev pxe] does, [_set_pxe_for_next_boot] returns
    normally, having run that command exactly once; a failure leaves one
    line in the log, and nothing else differs. *)
Theorem set_pxe_never_raises (m : machine) :
  exists m',
    _set_pxe_for_next_boot m = (Return tt, m')
    /\ self m' = self m /\ fs m' = fs m /\ nexec m' = S (nexec m)
    /\ issued "chassis bootdev pxe" (events_of _set_pxe_for_next_boot m) = 1%nat
    /\ (In (EvLog EXCEPTION "IPMI set next bootdev failed")
           (events_of _set_pxe_for_next_boot m)
        <-> answer "chassis bootdev pxe" m = ExecFail).
Proof.
  unfold events_of. rewrite _set_pxe_for_next_boot_eq.
  eexists. split; [reflexivity|]. unfold after_pxe. cbn [snd]. msimpl.
  repeat (split; [reflexivity|]).
  rewrite drop_app_length, issued_app, issued_exec_events.
  split.
  - destruct (answer "chassis bootdev pxe" m); reflexivity.
  - unfold exec_events, secret_events.
    destruct (answer "chassis bootdev pxe" m); cbn; split; intros H;
      try discriminate; try (intuition discriminate); auto 10.
Qed.

(** ** Strings, again *)

Lemma append_nil_r (s : string) : s +:+ EmptyString = s.
Proof.
  induction s as [|c s IH]; [reflexivity|].
  change (String c (s +:+ EmptyString) = String c s). by rewrite IH.
Qed.

Lemma append_assoc (s1 s2 s3 : string) : (s1 +:+ s2) +:+ s3 = s1 +:+ s2 +:+ s3.
Proof.
  induction s1 as [|c s1 IH]; [reflexivity|].
  change (String c ((s1 +:+ s2) +:+ s3) = String c (s1 +:+ s2 +:+ s3)).
  by rewrite IH.
Qed.

Lemma list_ascii_of_string_app (s1 s2 : string) :
  list_ascii_of_string (s1 +:+ s2)
  = list_ascii_of_string s1 ++ list_ascii_of_string s2.
Proof.
  induction s1 as [|c s1 IH]; [reflexivity|].
  change (c :: list_ascii_of_string (s1 +:+ s2)
          = c :: list_ascii_of_string s1 ++ list_ascii_of_string s2).
  by rewrite IH.
Qed.


Lemma join_cons sep x l : l <> [] -> join sep (x :: l) = x +:+ sep +:+ join sep l.
Proof. destruct l; [congruence | reflexivity]. Qed.



(** *** [int] reads what [str] writes *)

Lemma digits_acc_shift (l : list ascii) : forall acc,
  digits_acc acc l
  = (fun v => acc * 10 ^ Z.of_nat (length l) + v) <$> digits_acc 0 l.
Proof.
  induction l as [|c l IH]; intros acc.
  - cbn. f_equal. lia.
  - cbn [digits_acc]. destruct (digit_of c) as [d|]; [|reflexivity].
    rewrite (IH (10 * acc + d)), (IH (10 * 0 + d)).
    destruct (digits_acc 0 l) as [v|]; [|reflexivity].
    cbn [fmap option_fmap option_map length]. f_equal.
    rewrite Nat2Z.inj_succ, Z.pow_succ_r by lia. ring.
Qed.

Lemma digit_of_pretty_N_char (d : N) :
  (d < 10)%N -> digit_of (pretty_N_char d) = Some (Z.of_N d).
Proof.
  intros Hd.
  assert (d = 0 \/ d = 1 \/ d = 2 \/ d = 3 \/ d = 4 \/ d = 5 \/ d = 6
          \/ d = 7 \/ d = 8 \/ d = 9)%N as H by lia.
  repeat (destruct H as [-> | H]; [reflexivity|]). subst d. reflexivity.
Qed.

Lemma digits_acc_pretty_N_go (x : N) : forall (s : string) (v : Z),
  digits_acc 0 (list_ascii_of_string s) = Some v ->
  digits_acc 0 (list_ascii_of_string (pretty_N_go x s))
  = Some (Z.of_N x * 10 ^ Z.of_nat (length (list_ascii_of_string s)) + v).
Proof.
  induction (N.lt_wf_0 x) as [x _ IH]. intros s v Hs.
  destruct (decide (x = 0)%N) as [-> | Hx].
  - rewrite pretty_N_go_0, Hs. f_equal.
  - rewrite pretty_N_go_step by lia.
    assert (x `mod` 10 < 10)%N as Hm by (apply N.mod_lt; lia).
    erewrite IH; [| apply N.div_lt; lia |].
    2:{ cbn [list_ascii_of_string digits_acc].
        rewrite digit_of_pretty_N_char by exact Hm.
        rewrite digits_acc_shift, Hs. reflexivity. }
    f_equal. cbn [list_ascii_of_string length].
    rewrite Nat2Z.inj_succ, Z.pow_succ_r by lia.
    rewrite N2Z.inj_div, N2Z.inj_mod.
    pose proof (Z.div_mod (Z.of_N x) 10 ltac:(lia)) as Hdm.
    change (Z.of_N 10) with 10.
    set (q := Z.of_N x `div` 10) in *.
    set (r := Z.of_N x `mod` 10) in *.
    clearbody q r. rewrite Hdm. ring.
Qed.

Lemma digit_of_nonspace c d : digit_of c = Some d -> is_space c = false.
Proof.
  unfold digit_of, is_space.
  destruct (48 <=? nat_of_ascii c)%nat eqn:H1; [|discriminate].
  destruct (nat_of_ascii c <=? 57)%nat eqn:H2; [|discriminate].
  intros _. apply Nat.leb_le in H1, H2.
  rewrite (proj2 (Nat.eqb_neq _ _)) by lia.
  rewrite (proj2 (Nat.leb_gt (nat_of_ascii c) 13)) by lia.
  rewrite andb_false_r. reflexivity.
Qed.

Lemma digits_acc_nonspace (l : list ascii) : forall acc v,
  digits_acc acc l = Some v -> Forall (fun c => is_space c = false) l.
Proof.
  induction l as [|c l IH]; intros acc v H; [constructor|].
  cbn [digits_acc] in H. destruct (digit_of c) as [d|] eqn:Hd; [|discriminate].
  constructor; [eapply digit_of_nonspace; eassumption | eapply IH; eassumption].
Qed.

Lemma lstrip_spaces (w l : list ascii) :
  Forall (fun c => is_space c = true) w -> lstrip (w ++ l) = lstrip l.
Proof.
  induction 1 as [|c w Hc _ IH]; [reflexivity|].
  cbn [app lstrip]. rewrite Hc. exact IH.
Qed.

Lemma lstrip_app (l w : list ascii) :
  Forall (fun c => is_space c = true) w ->
  lstrip (l ++ w) = match lstrip l with [] => [] | _ => lstrip l ++ w end.
Proof.
  intros Hw. induction l as [|c l IH].
  - cbn [app lstrip]. rewrite <- (app_nil_r w). rewrite lstrip_spaces by exact Hw.
    reflexivity.
  - cbn [app lstrip]. destruct (is_space c); [exact IH | reflexivity].
Qed.

(** White space around a string does not change what [strip] leaves. *)
Lemma strip_spaces (w1 l w2 : list ascii) :
  Forall (fun c => is_space c = true) w1 ->
  Forall (fun c => is_space c = true) w2 ->
  strip (w1 ++ l ++ w2) = strip l.
Proof.
  intros H1 H2. unfold strip.
  rewrite lstrip_spaces by exact H1. rewrite lstrip_app by exact H2.
  destruct (lstrip l) as [|c l'] eqn:Hl; [reflexivity|].
  rewrite rev_app_distr. rewrite lstrip_spaces; [reflexivity|].
  apply Forall_rev. exact H2.
Qed.

Lemma lstrip_nonspace (l : list ascii) :
  match l with [] => True | c :: _ => is_space c = false end -> lstrip l = l.
Proof. destruct l as [|c l]; [reflexivity|]. cbn. by intros ->. Qed.

Lemma strip_nonspace (l : list ascii) :
  Forall (fun c => is_space c = false) l -> strip l = l.
Proof.
  intros H. unfold strip.
  rewrite (lstrip_nonspace l) by (destruct H; auto).
  rewrite lstrip_nonspace; [apply rev_involutive|].
  apply Forall_rev in H. destruct H; auto.
Qed.

Lemma digits_pretty_N (x : N) :
  digits (list_ascii_of_string (pretty x)) = Some (Z.of_N x)
  /\ Forall (fun c => is_space c = false) (list_ascii_of_string (pretty x))
  /\ match list_ascii_of_string (pretty x) with
     | "-"%char :: _ | "+"%char :: _ => False
     | _ => True
     end.
Proof.
  unfold pretty, pretty_N. destruct (decide (x = 0)%N) as [-> | Hx].
  - cbn. repeat split. repeat constructor.
  - pose proof (digits_acc_pretty_N_go x EmptyString 0 eq_refl) as H.
    cbn [list_ascii_of_string length] in H.
    rewrite Z.pow_0_r, Z.mul_1_r, Z.add_0_r in H.
    destruct (list_ascii_of_string (pretty_N_go x EmptyString)) as [|c l] eqn:Hl.
    + cbn in H. injection H as H. lia.
    + split; [exact H|]. split; [eapply digits_acc_nonspace; exact H|].
      cbn [digits_acc] in H.
      destruct (digit_of c) eqn:Hc; [|discriminate].
      destruct (Ascii.eqb_spec c "-") as [-> | ?]; [discriminate Hc|].
      destruct (Ascii.eqb_spec c "+") as [-> | ?]; [discriminate Hc|].
      destruct c as [[] [] [] [] [] [] [] []]; try exact I; congruence.
Qed.

(** [int(str(z))] is [z], white space around it or not. *)
Lemma int_pretty (z : Z) (ws1 ws2 : string) :
  all_space ws1 -> all_space ws2 ->
  int (ws1 +:+ pretty z +:+ ws2) = Some z.
Proof.
  intros H1 H2. unfold int.
  rewrite !list_ascii_of_string_app, strip_spaces by assumption.
  destruct z as [|p|p]; unfold pretty, pretty_Z.
  - reflexivity.
  - destruct (digits_pretty_N (Npos p)) as (Hd & Hns & Hsign).
    change (@pretty positive _ p) with (@pretty N _ (Npos p)).
    rewrite strip_nonspace by exact Hns.
    destruct (list_ascii_of_string (pretty (N.pos p))) as [|c l] eqn:Hl;
      [discriminate Hd|].
    destruct (Ascii.eqb_spec c "-") as [-> | ?]; [destruct Hsign|].
    destruct (Ascii.eqb_spec c "+") as [-> | ?]; [destruct Hsign|].
    destruct c as [[] [] [] [] [] [] [] []]; try exact Hd; congruence.
  - destruct (digits_pretty_N (Npos p)) as (Hd & Hns & _).
    change (@pretty positive _ p) with (@pretty N _ (Npos p)).
    change (list_ascii_of_string ("-" +:+ pretty (N.pos p)))
      with ("-"%char :: list_ascii_of_string (pretty (N.pos p))).
    rewrite strip_nonspace by (constructor; [reflexivity | exact Hns]).
    cbv beta iota. rewrite Hd. reflexivity.
Qed.

(** ** The pid record *)

Lemma advance_0_nil (m : machine) : advance 0 [] m = m.
Proof. destruct m; unfold advance; cbn. by rewrite app_nil_r. Qed.

(** X6.  [_get_console_pid] reads back a process id that was written in
    decimal, with or without white space around it (a trailing line feed,
    say): it returns that number, logs nothing and changes nothing. *)
Theorem get_console_pid_reads_pid
  (m : machine) (f : file) (pid : Z) (ws1 ws2 : string) :
  fs m !! pid_path m = Some f ->
  f_data f = ws1 +:+ pretty pid +:+ ws2 ->
  all_space ws1 -> all_space ws2 ->
  _get_console_pid (node_id (self m)) m = (Return (Some pid), m).
Proof.
  intros Hf Hdata H1 H2. rewrite _get_console_pid_eq.
  unfold console_pid, pid_warning. rewrite Hf, Hdata.
  rewrite (int_pretty pid ws1 ws2 H1 H2), advance_0_nil. reflexivity.
Qed.

(** X7.  [stop_console] signals the process the record names: when the
    record holds the decimal rendering of a process id other than 0, the
    first thing [stop_console] does is to run [kill -TERM] on exactly that
    id, as root and accepting the exit codes 0 and 99. *)
Theorem stop_console_signals_recorded_pid
  (m : machine) (f : file) (pid : Z) (ws1 ws2 : string) :
  fs m !! pid_path m = Some f ->
  f_data f = ws1 +:+ pretty pid +:+ ws2 ->
  all_space ws1 -> all_space ws2 ->
  pid <> 0 ->
  head (events_of stop_console m)
  = Some (EvExecute ["kill"; "-TERM"; pretty pid]
            (mkKw 1 true [0; 99] false)).
Proof.
  intros Hf Hdata H1 H2 Hnz.
  assert (console_pid m = Some pid) as Hpid.
  { unfold console_pid. rewrite Hf, Hdata. apply int_pretty; assumption. }
  unfold events_of. rewrite (stop_console_signal m pid Hpid Hnz).
  destruct (env m (nexec m) (kill_args pid)); cbn [snd]; msimpl;
    rewrite ?app_nil_r, <- ?app_assoc, drop_app_length; reflexivity.
Qed.

(** ** The secret *)


(** X9.  [_make_password_file] writes the secret to a file of its own:
    the path it returns did not exist, afterwards it holds exactly the
    secret under permission bits [0600] (reading it gives the secret
    back), and every other path is as it was. *)
Theorem make_password_file_round_trip (pw : string) (m : machine) :
  exists p m',
    _make_password_file pw m = (Return p, m')
    /\ fs m !! p = None
    /\ fs m' !! p = Some (mkFile 384 pw)
    /\ os.read p m' = (Return pw, m')
    /\ (forall q, q <> p -> fs m' !! q = fs m !! q)
    /\ self m' = self m /\ nexec m' = nexec m.
Proof.
  rewrite _make_password_file_eq. eexists _, _. split; [reflexivity|].
  msimpl. split; [apply pwfile_fresh|].
  split; [apply lookup_insert_eq|].
  split.
  { unfold os.read, bind, gets. msimpl. rewrite lookup_insert_eq. reflexivity. }
  split; [intros q Hq; apply lookup_insert_ne; congruence|].
  split; reflexivity.
Qed.

Lemma start_console_no_port (m : machine) :
  truthy (port (self m)) = false -> start_console m = (Return tt, m).
Proof.
  intros Hport. unfold start_console, on_disk.start_console, bind, gets.
  rewrite Hport. reflexivity.
Qed.

(** On a file system that lets the secret file be made, the three
    functions do what they do on one that refuses nothing. *)
Lemma on_disk_accepts (d : disk) (command : string) (m : machine) :
  accepts d (pwfile m) ->
  on_disk._make_password_file d (password (self m)) m
  = _make_password_file (password (self m)) m
  /\ on_disk._exec_ipmitool d command m = _exec_ipmitool command m
  /\ on_disk.start_console d m = start_console m.
Proof.
  intros Hacc.
  split.
  { rewrite on_disk_make_password_file_eq, _make_password_file_eq.
    apply secret_file_outcome_accepts. exact Hacc. }
  split.
  { rewrite on_disk_exec_ipmitool_eq, _exec_ipmitool_eq.
    rewrite secret_file_outcome_accepts by exact Hacc. reflexivity. }
  destruct (truthy (port (self m))) eqn:Hport.
  - rewrite (on_disk_start_console_eq d m Hport), (start_console_eq m Hport).
    rewrite secret_file_outcome_accepts by exact Hacc. reflexivity.
  - rewrite (start_console_no_port m Hport).
    unfold on_disk.start_console, bind, gets. rewrite Hport. reflexivity.
Qed.

(** X10.  When the file system refuses the secret file, nothing is run
    and a file that was created stays behind.  [_exec_ipmitool] passes the
    error of [_make_password_file] on.  [start_console], on a node with a
    console port, does not: its [finally] clause reads [pwfile], which was
    never bound, and the caller gets [UnboundLocalError] in place of the
    error of the file system. *)
Theorem secret_file_refused (d : disk) (command : string) (m : machine) :
  refuses d (pwfile m) ->
  exists e m',
    on_disk._make_password_file d (password (self m)) m = (Raise e, m')
    /\ (e = OSError \/ e = IOError)
    /\ on_disk._exec_ipmitool d command m = (Raise e, m')
    /\ (truthy (port (self m)) = true ->
        on_disk.start_console d m = (Raise UnboundLocalError, m'))
    /\ nexec m' = nexec m /\ self m' = self m
    /\ (d Mkstemp (pwfile m) = true -> m' = m)
    /\ (d Mkstemp (pwfile m) = false ->
        fs m !! pwfile m = None
        /\ fs m' !! pwfile m = Some (mkFile 384 EmptyString)).
Proof.
  intros Href.
  destruct (secret_file_outcome_refuses d (password (self m)) m Href)
    as (e & m' & Hout & He & Hself & _ & Hn & Hm & Hfs).
  exists e, m'.
  split; [rewrite on_disk_make_password_file_eq; exact Hout|].
  split; [exact He|].
  split; [rewrite on_disk_exec_ipmitool_eq, Hout; reflexivity|].
  split.
  { intros Hport. rewrite (on_disk_start_console_eq d m Hport), Hout.
    reflexivity. }
  split; [exact Hn|]. split; [exact Hself|]. split; [exact Hm|].
  intros Hd. split; [apply pwfile_fresh|].
  rewrite (Hfs Hd). apply lookup_insert_eq.
Qed.

(** ** Stopping twice *)

(** X11.  A second [stop_console] after one that returned finds no
    record: it sends no signal, returns, and leaves the file system as
    it is. *)
Theorem stop_console_twice (m m' : machine) :
  stop_console m = (Return tt, m') ->
  exists m'',
    stop_console m' = (Return tt, m'')
    /\ nexec m'' = nexec m'
    /\ fs m'' = fs m'
    /\ events_of stop_console m' = [EvFile Unlink (pid_path m) None].
Proof.
  intros Hrun.
  assert (fs m' !! pid_path m = None /\ pid_path m' = pid_path m) as [Hgone Hpath].
  { destruct (truthy (console_pid m)) eqn:Htr.
    - destruct (truthy_Some _ Htr) as (pid & Hpid & Hnz).
      rewrite (stop_console_signal m pid Hpid Hnz) in Hrun.
      destruct (env m (nexec m) (kill_args pid)); [|discriminate].
      injection Hrun as <-. msimpl. split; [apply lookup_delete_eq | reflexivity].
    - rewrite (stop_console_no_signal m Htr) in Hrun.
      injection Hrun as <-. msimpl. split; [apply lookup_delete_eq | reflexivity]. }
  assert (truthy (console_pid m') = false) as Htr'.
  { unfold console_pid. rewrite Hpath, Hgone. reflexivity. }
  unfold events_of. rewrite (stop_console_no_signal m' Htr').
  eexists. split; [reflexivity|]. cbn [snd]. msimpl.
  unfold pid_warning. rewrite Hpath, Hgone.
  split; [reflexivity|]. split; [by apply delete_id|].
  rewrite drop_app_length. reflexivity.
Qed.

(** ** Rebooting *)

(** A loop that uses up its budget, with its frame. *)
Lemma power_exhausts (op : power_op) (m : machine) (fuel : nat) :
  0 <= ipmi_power_retry (CONF m) ->
  (Z.to_nat (ipmi_power_retry (CONF m)) + 2 <= fuel)%nat ->
  status_answers (env m) ->
  never_reports (expected_of op) (env m) ->
  exists m' evs,
    run_power op fuel m = (Return tt, m')
    /\ power_frame op m m' evs
    /\ state (self m') = Some states.ERROR
    /\ Z.of_nat (issued (command_of op) evs) = ipmi_power_retry (CONF m) + 1.
Proof.
  intros Hn Hfuel Hans Hnever. rewrite run_power_eq.
  set (m0 := set_self (set_retries (Some 0) (self m)) m).
  destruct (loop_exhausts op (Z.to_nat (ipmi_power_retry (CONF m) + 1)) m0 0 fuel)
    as (m' & evs & Hrun & Ht & Hst & Hiss & _);
    [reflexivity | subst m0; msimpl; lia | lia | exact Hans | exact Hnever |].
  destruct (loop_frame op fuel m0 0 eq_refl)
    as (res & m'' & evs' & Hrun' & Hfr & _).
  rewrite Hrun in Hrun'. injection Hrun' as <- <-.
  assert (evs' = evs) as ->.
  { destruct Hfr as (Ht' & _). rewrite Ht in Ht'.
    eapply app_inv_head. symmetry. exact Ht'. }
  exists m', evs. split; [exact Hrun|].
  split.
  { destruct Hfr as (Ht' & He & Hc & Hf & Hu & Hg & Hsn & Hok).
    unfold power_frame. repeat (split; [assumption|]).
    eapply Forall_impl; [exact Hok|]. intros e.
    apply power_event_ok_same_node. repeat split. }
  split; [exact Hst|]. rewrite Hiss. lia.
Qed.

(** A loop whose first status query reports the target. *)
Lemma power_first_check (op : power_op) (m : machine) (fuel : nat) (err : string) :
  (1 <= fuel)%nat ->
  answer "power status" m = ExecOk (status_line (expected_of op)) err ->
  exists m' evs,
    run_power op fuel m = (Return tt, m')
    /\ power_frame op m m' evs
    /\ state (self m') = Some (success_of op)
    /\ issued (command_of op) evs = 0%nat.
Proof.
  intros Hfuel Ha. destruct fuel as [|fuel]; [lia|]. rewrite run_power_eq.
  set (m0 := set_self (set_retries (Some 0) (self m)) m).
  destruct (loop_frame op (S fuel) m0 0 eq_refl)
    as (res & m' & evs & Hrun & Hfr & Hr & _).
  assert (loopingcall.FixedIntervalLoopingCall (S fuel) (callback_of op) m0
          = (Return tt,
             set_self (set_state (Some (success_of op)) (self m0))
               (advance 1 (exec_events (self m0) (pwfile m0) "power status"
                             (ExecOk (status_line (expected_of op)) err))
                  (emit EvCallback m0)))) as Heq.
  { cbn [loopingcall.FixedIntervalLoopingCall].
    rewrite (callback_eq op 0) by reflexivity. unfold callback_outcome.
    change (answer "power status" (emit EvCallback m0))
      with (answer "power status" m).
    rewrite Ha, String.eqb_refl. reflexivity. }
  rewrite Heq in Hrun. injection Hrun as <- <-.
  eexists _, evs. split; [exact Heq|].
  split.
  { destruct Hfr as (Ht' & He & Hc & Hf & Hu & Hg & Hsn & Hok).
    unfold power_frame. repeat (split; [assumption|]).
    eapply Forall_impl; [exact Hok|]. intros e.
    apply power_event_ok_same_node. repeat split. }
  split; [reflexivity|].
  msimpl. injection Hr as Hr. lia.
Qed.

Lemma frame_issued_other (op : power_op) (c : string) (m m' : machine) evs :
  split " " c <> ["power"; "status"] ->
  split " " c <> split " " (command_of op) ->
  power_frame op m m' evs -> issued c evs = 0%nat.
Proof.
  intros Hs Hc (_ & _ & _ & _ & _ & _ & _ & Hok).
  eapply issued_none_of_ok; eassumption.
Qed.

Lemma issued_pxe_failure_events (c : string) (a : exec_result) :
  issued c (pxe_failure_events a) = 0%nat.
Proof. destruct a; reflexivity. Qed.

(** Settling which of two concrete commands is meant. *)
Ltac decide_commands :=
  repeat match goal with
         | |- context [bool_decide ?P] =>
             first [ rewrite (bool_decide_eq_true_2 P) by (vm_compute; reflexivity)
                   | rewrite (bool_decide_eq_false_2 P)
                       by (vm_compute; discriminate) ]
         end;
  cbv beta iota.

Lemma status_answers_of_unreadable e : status_unreadable e -> status_answers e.
Proof.
  intros H k args Hargs. destruct (H k args Hargs) as (out & err & -> & _).
  discriminate.
Qed.

Lemma never_reports_of_unreadable op e :
  status_unreadable e -> never_reports (expected_of op) e.
Proof.
  intros H k args err' Hargs.
  destruct (H k args Hargs) as (out & err & -> & Hon & Hoff).
  intros Heq. injection Heq as -> _. destruct op; [apply Hon | apply Hoff]; reflexivity.
Qed.

Lemma status_answers_of_always_on e : status_always_on e -> status_answers e.
Proof.
  intros H k args Hargs. destruct (H k args Hargs) as (err & ->). discriminate.
Qed.

Lemma never_reports_off_of_always_on e :
  status_always_on e -> never_reports "off" e.
Proof.
  intros H k args err' Hargs. destruct (H k args Hargs) as (err & ->).
  intros Heq. injection Heq as Heq _. vm_compute in Heq. discriminate Heq.
Qed.

(** X12.  [reboot_node] gives each of its two loops the whole budget.
    With a status query whose output is neither status line and a budget
    [n >= 0], it issues [power off] [n + 1] times, then sets the boot
    device once, then issues [power on] [n + 1] times, and returns
    [ERROR]. *)
Theorem reboot_node_unreadable_status (m : machine) (fuel : nat) :
  0 <= ipmi_power_retry (CONF m) ->
  (Z.to_nat (ipmi_power_retry (CONF m)) + 2 <= fuel)%nat ->
  status_unreadable (env m) ->
  exists m' evs,
    reboot_node fuel m = (Return (Some states.ERROR), m')
    /\ trace m' = trace m ++ evs
    /\ Z.of_nat (issued "power off" evs) = ipmi_power_retry (CONF m) + 1
    /\ issued "chassis bootdev pxe" evs = 1%nat
    /\ Z.of_nat (issued "power on" evs) = ipmi_power_retry (CONF m) + 1.
Proof.
  intros Hn Hfuel Hun. unfold reboot_node.
  destruct (power_exhausts PowerOff m fuel Hn Hfuel
              (status_answers_of_unreadable _ Hun)
              (never_reports_of_unreadable PowerOff _ Hun))
    as (m1 & evs1 & Hrun1 & Hfr1 & _ & Hiss1).
  change (run_power PowerOff fuel) with (_power_off fuel) in Hrun1.
  erewrite bind_Return by exact Hrun1.
  erewrite bind_Return by apply _set_pxe_for_next_boot_eq.
  pose proof Hfr1 as (Ht1 & He1 & Hc1 & _).
  destruct (power_exhausts PowerOn (after_pxe m1) fuel)
    as (m3 & evs3 & Hrun3 & Hfr3 & Hst3 & Hiss3).
  { change (CONF (after_pxe m1)) with (CONF m1). rewrite Hc1. exact Hn. }
  { change (CONF (after_pxe m1)) with (CONF m1). rewrite Hc1. exact Hfuel. }
  { change (env (after_pxe m1)) with (env m1). rewrite He1.
    apply status_answers_of_unreadable. exact Hun. }
  { change (env (after_pxe m1)) with (env m1). rewrite He1.
    apply (never_reports_of_unreadable PowerOn). exact Hun. }
  change (run_power PowerOn fuel) with (_power_on fuel) in Hrun3.
  erewrite bind_Return by exact Hrun3. unfold gets. rewrite Hst3.
  pose proof Hfr3 as (Ht3 & _).
  change (CONF (after_pxe m1)) with (CONF m1) in Hiss3. rewrite Hc1 in Hiss3.
  eexists m3, _. split; [reflexivity|].
  split.
  { rewrite Ht3. unfold after_pxe at 1. msimpl. rewrite Ht1.
    rewrite <- !app_assoc. reflexivity. }
  rewrite !issued_app, !issued_exec_events, !issued_pxe_failure_events.
  rewrite (frame_issued_other PowerOff "chassis bootdev pxe" _ _ _
             ltac:(discriminate) ltac:(discriminate) Hfr1).
  rewrite (frame_issued_other PowerOn "chassis bootdev pxe" _ _ _
             ltac:(discriminate) ltac:(discriminate) Hfr3).
  rewrite (frame_issued_other PowerOff "power on" _ _ _
             ltac:(discriminate) ltac:(discriminate) Hfr1).
  rewrite (frame_issued_other PowerOn "power off" _ _ _
             ltac:(discriminate) ltac:(discriminate) Hfr3).
  change (command_of PowerOff) with "power off" in Hiss1.
  change (command_of PowerOn) with "power on" in Hiss3.
  decide_commands. repeat split; lia.
Qed.

(** X13.  [reboot_node] reports what its power-on loop finds, whatever
    became of the power-off loop: on a node that answers "on" throughout,
    the power-off loop uses up its budget ([n + 1] times [power off]) and
    records [ERROR], the power-on loop then finds the node on at its first
    check, and [reboot_node] returns [ACTIVE] without having issued
    [power on]. *)
Theorem reboot_node_that_stays_on (m : machine) (fuel : nat) :
  0 <= ipmi_power_retry (CONF m) ->
  (Z.to_nat (ipmi_power_retry (CONF m)) + 2 <= fuel)%nat ->
  status_always_on (env m) ->
  exists m' evs,
    reboot_node fuel m = (Return (Some states.ACTIVE), m')
    /\ trace m' = trace m ++ evs
    /\ Z.of_nat (issued "power off" evs) = ipmi_power_retry (CONF m) + 1
    /\ issued "chassis bootdev pxe" evs = 1%nat
    /\ issued "power on" evs = 0%nat.
Proof.
  intros Hn Hfuel Hon. unfold reboot_node.
  destruct (power_exhausts PowerOff m fuel Hn Hfuel
              (status_answers_of_always_on _ Hon)
              (never_reports_off_of_always_on _ Hon))
    as (m1 & evs1 & Hrun1 & Hfr1 & _ & Hiss1).
  change (run_power PowerOff fuel) with (_power_off fuel) in Hrun1.
  erewrite bind_Return by exact Hrun1.
  erewrite bind_Return by apply _set_pxe_for_next_boot_eq.
  pose proof Hfr1 as (Ht1 & He1 & Hc1 & _).
  destruct (Hon (nexec (after_pxe m1))
              (ipmitool_args (self (after_pxe m1)) (pwfile (after_pxe m1))
                 "power status") (status_args_ok _ _)) as (err & Herr).
  destruct (power_first_check PowerOn (after_pxe m1) fuel err)
    as (m3 & evs3 & Hrun3 & Hfr3 & Hst3 & Hiss3).
  { lia. }
  { unfold answer. change (env (after_pxe m1)) with (env m1).
    rewrite He1. exact Herr. }
  change (run_power PowerOn fuel) with (_power_on fuel) in Hrun3.
  erewrite bind_Return by exact Hrun3. unfold gets. rewrite Hst3.
  pose proof Hfr3 as (Ht3 & _).
  eexists m3, _. split; [reflexivity|].
  split.
  { rewrite Ht3. unfold after_pxe at 1. msimpl. rewrite Ht1.
    rewrite <- !app_assoc. reflexivity. }
  rewrite !issued_app, !issued_exec_events, !issued_pxe_failure_events.
  rewrite (frame_issued_other PowerOff "chassis bootdev pxe" _ _ _
             ltac:(discriminate) ltac:(discriminate) Hfr1).
  rewrite (frame_issued_other PowerOn "chassis bootdev pxe" _ _ _
             ltac:(discriminate) ltac:(discriminate) Hfr3).
  rewrite (frame_issued_other PowerOff "power on" _ _ _
             ltac:(discriminate) ltac:(discriminate) Hfr1).
  rewrite (frame_issued_other PowerOn "power off" _ _ _
             ltac:(discriminate) ltac:(discriminate) Hfr3).
  change (command_of PowerOff) with "power off" in Hiss1.
  change (command_of PowerOn) with "power on" in Hiss3.
  rewrite Hiss3. decide_commands. repeat split; lia.
Qed.

(** ** The recorded state is not an input *)

Lemma with_state_id (m : machine) : with_state (state (self m)) m = m.
Proof. destruct m as [[] ? ? ? ? ? ? ?]. reflexivity. Qed.

Lemma callback_outcome_with_state (op : power_op) (r : Z) (s : option states.t)
  (m : machine) :
  fst (callback_outcome op r (with_state s m)) = fst (callback_outcome op r m)
  /\ (fst (callback_outcome op r m) = Raise LoopingCallDone
       /\ snd (callback_outcome op r (with_state s m))
          = snd (callback_outcome op r m)
      \/ fst (callback_outcome op r m) <> Raise LoopingCallDone
         /\ snd (callback_outcome op r (with_state s m))
            = with_state s (snd (callback_outcome op r m))).
Proof.
  unfold callback_outcome.
  change (answer "power status" (with_state s m)) with (answer "power status" m).
  destruct (answer "power status" m) as [out err|].
  - destruct (String.eqb out _).
    + split; [reflexivity|]. left. split; reflexivity.
    + change (CONF (with_state s m)) with (CONF m).
      destruct (Z.ltb _ r).
      * split; [reflexivity|]. left. split; reflexivity.
      * split; [reflexivity|]. right. split; [discriminate | reflexivity].
  - split; [reflexivity|]. right. split; [discriminate | reflexivity].
Qed.

(** A polling loop started with another recorded state: the same outcome,
    and the same machine but for the recorded state, which is the same
    too once the loop has returned. *)
Lemma loop_with_state (op : power_op) (fuel : nat) :
  forall (m : machine) (r : Z) (s : option states.t),
    retries (self m) = Some r ->
    fst (loopingcall.FixedIntervalLoopingCall fuel (callback_of op) (with_state s m))
    = fst (loopingcall.FixedIntervalLoopingCall fuel (callback_of op) m)
    /\ (exists s',
          snd (loopingcall.FixedIntervalLoopingCall fuel (callback_of op)
                 (with_state s m))
          = with_state s'
              (snd (loopingcall.FixedIntervalLoopingCall fuel (callback_of op) m)))
    /\ (fst (loopingcall.FixedIntervalLoopingCall fuel (callback_of op) m)
        = Return tt ->
        snd (loopingcall.FixedIntervalLoopingCall fuel (callback_of op)
               (with_state s m))
        = snd (loopingcall.FixedIntervalLoopingCall fuel (callback_of op) m)).
Proof.
  induction fuel as [|fuel IH]; intros m r s Hr.
  - cbn. split; [reflexivity|]. split; [exists s; reflexivity | discriminate].
  - cbn [loopingcall.FixedIntervalLoopingCall].
    change (emit EvCallback (with_state s m))
      with (with_state s (emit EvCallback m)).
    rewrite (callback_eq op r (with_state s (emit EvCallback m))) by exact Hr.
    rewrite (callback_eq op r (emit EvCallback m)) by exact Hr.
    destruct (callback_outcome_with_state op r s (emit EvCallback m))
      as (Hfst & Hsnd).
    pose proof (callback_counter op (emit EvCallback m) r Hr)
      as (res0 & m0 & Hc & Hcount).
    rewrite (callback_eq op r (emit EvCallback m)) in Hc by exact Hr.
    destruct (callback_outcome op r (with_state s (emit EvCallback m)))
      as [res1 m1].
    rewrite Hc in *. cbn [fst snd] in *. subst res1.
    destruct Hsnd as [[-> ->] | [Hne ->]].
    + cbn. split; [reflexivity|].
      split; [exists (state (self m0)); by rewrite with_state_id | reflexivity].
    + destruct Hcount as [[[-> | ->] _] | (-> & Hr0 & _)].
      * congruence.
      * cbn. split; [reflexivity|]. split; [exists s; reflexivity | discriminate].
      * apply (IH m0 (r + 1) s Hr0).
Qed.

Lemma run_power_with_state (op : power_op) (fuel : nat) (s : option states.t)
  (m : machine) :
  fst (run_power op fuel (with_state s m)) = fst (run_power op fuel m)
  /\ (exists s', snd (run_power op fuel (with_state s m))
                 = with_state s' (snd (run_power op fuel m)))
  /\ (fst (run_power op fuel m) = Return tt ->
      snd (run_power op fuel (with_state s m)) = snd (run_power op fuel m)).
Proof.
  rewrite !run_power_eq.
  apply (loop_with_state op fuel (set_self (set_retries (Some 0) (self m)) m) 0 s).
  reflexivity.
Qed.

Lemma bind_same_outcome {A} (c : M unit) (k : unit -> M A) (m1 m2 : machine) :
  fst (c m1) = fst (c m2) ->
  (fst (c m2) = Return tt -> snd (c m1) = snd (c m2)) ->
  trace (snd (c m1)) = trace (snd (c m2)) ->
  fst (bind c k m1) = fst (bind c k m2)
  /\ trace (snd (bind c k m1)) = trace (snd (bind c k m2)).
Proof.
  unfold bind. destruct (c m1) as [res1 n1], (c m2) as [res2 n2].
  cbn [fst snd]. intros -> Heq Htr.
  destruct res2 as [[]|e|]; [|split; [reflexivity | exact Htr]..].
  rewrite (Heq eq_refl). split; reflexivity.
Qed.

(** X14.  [deactivate_node] and [reboot_node] go about their work
    "regardless of current state": started with any recorded state
    instead of the one the controller holds, each runs the same commands,
    writes the same log and ends the same way with the same value. *)
Theorem recorded_state_is_not_read
  (s : option states.t) (fuel : nat) (m : machine) :
  (fst (deactivate_node fuel (with_state s m)) = fst (deactivate_node fuel m)
   /\ trace (snd (deactivate_node fuel (with_state s m)))
      = trace (snd (deactivate_node fuel m)))
  /\ (fst (reboot_node fuel (with_state s m)) = fst (reboot_node fuel m)
      /\ trace (snd (reboot_node fuel (with_state s m)))
         = trace (snd (reboot_node fuel m))).
Proof.
  destruct (run_power_with_state PowerOff fuel s m) as (Hfst & [s' Hsnd] & Heq).
  change (run_power PowerOff fuel) with (_power_off fuel) in *.
  assert (trace (snd (_power_off fuel (with_state s m)))
          = trace (snd (_power_off fuel m))) as Htr by (rewrite Hsnd; reflexivity).
  split; [unfold deactivate_node | unfold reboot_node];
    apply bind_same_outcome; assumption.
Qed.

(** ** The console command line *)

Lemma append_cons (c : ascii) (s t : string) : String c s +:+ t = String c (s +:+ t).
Proof. reflexivity. Qed.

Lemma append_nil_l (t : string) : EmptyString +:+ t = t.
Proof. reflexivity. Qed.

(** A quoted stretch is read back as what was quoted. *)
Lemma sh_words_quoted (s : string) : forall (cur rest : string),
  sh_words true (Some cur) (replace "'" "'\''" s +:+ "'" +:+ rest)
  = sh_words false (Some (cur +:+ s)) rest.
Proof.
  induction s as [|d s IH]; intros cur rest.
  - cbn [replace]. rewrite append_nil_l, append_nil_r. reflexivity.
  - cbn [replace]. destruct (Ascii.eqb d "'") eqn:Hd.
    + apply Ascii.eqb_eq in Hd. subst d.
      rewrite append_assoc.
      change (sh_words true (Some cur)
                ("'\''" +:+ replace "'" "'\''" s +:+ "'" +:+ rest))
        with (sh_words true (Some ((cur +:+ "'")))
                (replace "'" "'\''" s +:+ "'" +:+ rest)).
      rewrite IH, append_assoc. reflexivity.
    + rewrite append_cons. cbn [sh_words]. rewrite Hd.
      unfold push. cbn [default from_option].
      rewrite IH, append_assoc. reflexivity.
Qed.

(** X16.  The quoting of [start_console] is faithful: a shell that reads
    the quoted arguments, joined by blanks, gets back exactly the argument
    list, whatever characters (quotes, blanks, backslashes) the arguments
    hold. *)
Theorem shell_quote_round_trip (args : list string) :
  sh_words false None (join " " (map shell_quote args)) = Some args.
Proof.
  induction args as [|a l IH]; [reflexivity|].
  cbn [map]. destruct l as [|b l].
  - cbn [map join]. unfold shell_quote.
    rewrite append_cons, append_nil_l. cbn [sh_words Ascii.eqb Bool.eqb].
    cbn [default from_option].
    rewrite <- (append_nil_r "'") at 2.
    rewrite sh_words_quoted. reflexivity.
  - rewrite join_cons by discriminate.
    unfold shell_quote at 1.
    rewrite !append_cons, !append_nil_l. cbn [sh_words Ascii.eqb Bool.eqb].
    cbn [default from_option].
    rewrite append_assoc, sh_words_quoted.
    rewrite ?append_nil_l, ?append_cons.
    cbn [sh_words Ascii.eqb Bool.eqb]. rewrite ?append_nil_l, IH. reflexivity.
Qed.

(** X15.  [start_console]: without a console port (none, or port 0)
    nothing happens at all.  With one, a single command goes to the shell:
    the proxy and its arguments, each in single quotes, followed by the
    three redirections; the secret file is there for it and gone
    afterwards; and a failure of the launch is raised to the caller. *)
Theorem start_console_launch (m : machine) :
  if truthy (port (self m)) then
    exists args,
      events_of start_console m
      = secret_events (pwfile m)
        ++ [EvExecute
              [join " " (map shell_quote args
                         ++ ["</dev/null"; ">/dev/null"; "2>&1"])]
              (mkKw 1 false [0] true);
            EvFile Unlink (pwfile m) None]
      /\ head args = Some (terminal (CONF m))
      /\ In ("--background=" +:+ pid_path m) args
      /\ nexec (snd (start_console m)) = S (nexec m)
      /\ self (snd (start_console m)) = self m
      /\ (fst (start_console m) = Raise ProcessExecutionError
          <-> env m (nexec m)
                [join " " (map shell_quote args
                           ++ ["</dev/null"; ">/dev/null"; "2>&1"])]
              = ExecFail)
  else start_console m = (Return tt, m).
Proof.
  destruct (truthy (port (self m))) eqn:Hport;
    [|apply start_console_no_port; exact Hport].
  unfold events_of. rewrite (start_console_eq m Hport). cbn [fst snd]. msimpl.
  rewrite drop_app_length.
  unfold console_command. cbv zeta. rewrite <- !app_assoc.
  eexists. split; [reflexivity|].
  split; [destruct (nonempty _); reflexivity|].
  split.
  { destruct (nonempty _); cbn; auto 10. }
  split; [reflexivity|]. split; [reflexivity|].
  cbn [app].
  match goal with |- context [env m (nexec m) ?a] =>
    destruct (env m (nexec m) a) end; cbn [unit_outcome];
    split; (discriminate || reflexivity).
Qed.

(** ** These theorems at work *)

Lemma get_console_pid_reads_pid_witness :
  _get_console_pid (node_id (self (machine_pid ("4242" +:+ LF) always_fails)))
    (machine_pid ("4242" +:+ LF) always_fails)
  = (Return (Some 4242), machine_pid ("4242" +:+ LF) always_fails).
Proof.
  apply (get_console_pid_reads_pid (machine_pid ("4242" +:+ LF) always_fails)
           (mkFile 420 ("4242" +:+ LF)) 4242 EmptyString LF).
  - vm_compute. reflexivity.
  - vm_compute. reflexivity.
  - constructor.
  - repeat constructor.
Defined.

Lemma stop_console_signals_recorded_pid_witness :
  head (events_of stop_console (machine_pid ("4242" +:+ LF) always_fails))
  = Some (EvExecute ["kill"; "-TERM"; pretty 4242] (mkKw 1 true [0; 99] false)).
Proof.
  apply (stop_console_signals_recorded_pid
           (machine_pid ("4242" +:+ LF) always_fails)
           (mkFile 420 ("4242" +:+ LF)) 4242 EmptyString LF).
  - vm_compute. reflexivity.
  - vm_compute. reflexivity.
  - constructor.
  - repeat constructor.
  - lia.
Defined.

Lemma secret_file_refused_witness :
  exists e m',
    on_disk._exec_ipmitool disk_full "power status" (machine0 always_on)
    = (Raise e, m')
    /\ on_disk.start_console disk_full (machine0 always_on)
       = (Raise UnboundLocalError, m')
    /\ nexec m' = 0%nat
    /\ fs m' !! "/tmp/tmp" = Some (mkFile 384 EmptyString).
Proof.
  destruct (secret_file_refused disk_full "power status" (machine0 always_on))
    as (e & m' & _ & _ & Hexec & Hconsole & Hn & _ & _ & Hleft).
  - right; right. reflexivity.
  - exists e, m'. split; [exact Hexec|].
    split; [apply Hconsole; reflexivity|]. split; [exact Hn|].
    apply Hleft. reflexivity.
Defined.

Lemma stop_console_twice_witness :
  exists m'',
    stop_console (snd (stop_console (machine_pid "4242" always_off)))
    = (Return tt, m'')
    /\ nexec m'' = nexec (snd (stop_console (machine_pid "4242" always_off)))
    /\ fs m'' = fs (snd (stop_console (machine_pid "4242" always_off)))
    /\ events_of stop_console (snd (stop_console (machine_pid "4242" always_off)))
       = [EvFile Unlink (pid_path (machine_pid "4242" always_off)) None].
Proof.
  apply (stop_console_twice (machine_pid "4242" always_off)).
  vm_compute. reflexivity.
Defined.

Lemma reboot_node_unreadable_status_witness :
  exists m' evs,
    reboot_node 7 (machine0 always_garbled) = (Return (Some states.ERROR), m')
    /\ trace m' = trace (machine0 always_garbled) ++ evs
    /\ Z.of_nat (issued "power off" evs) = 5 + 1
    /\ issued "chassis bootdev pxe" evs = 1%nat
    /\ Z.of_nat (issued "power on" evs) = 5 + 1.
Proof.
  apply (reboot_node_unreadable_status (machine0 always_garbled) 7).
  - simpl. lia.
  - simpl. lia.
  - intros k args _. exists "Error: Unable to establish session", EmptyString.
    split; [reflexivity|].
    split; intros H; vm_compute in H; discriminate H.
Defined.

Lemma reboot_node_that_stays_on_witness :
  exists m' evs,
    reboot_node 7 (machine0 always_on) = (Return (Some states.ACTIVE), m')
    /\ trace m' = trace (machine0 always_on) ++ evs
    /\ Z.of_nat (issued "power off" evs) = 5 + 1
    /\ issued "chassis bootdev pxe" evs = 1%nat
    /\ issued "power on" evs = 0%nat.
Proof.
  apply (reboot_node_that_stays_on (machine0 always_on) 7).
  - simpl. lia.
  - simpl. lia.
  - intros k args _. exists EmptyString. reflexivity.
Defined.

(** Nothing can be created: [_exec_ipmitool] raises the [OSError] of
    [mkstemp], [start_console] an [UnboundLocalError]; the machine is as it
    was. *)
Example secret_file_on_read_only_disk :
  on_disk._exec_ipmitool read_only "power status" (machine0 always_on)
  = (Raise OSError, machine0 always_on)
  /\ on_disk.start_console read_only (machine0 always_on)
     = (Raise UnboundLocalError, machine0 always_on).
Proof. split; vm_compute; reflexivity. Qed.

(** No space left: the secret file is created and left behind, empty. *)
Example secret_file_on_full_disk :
  events_of (on_disk.start_console disk_full) (machine0 always_on)
  = [EvFile Mkstemp "/tmp/tmp" (Some 384); EvFile Fchmod "/tmp/tmp" (Some 384)]
  /\ fst (on_disk.start_console disk_full (machine0 always_on))
     = Raise UnboundLocalError
  /\ fs (snd (on_disk.start_console disk_full (machine0 always_on))) !! "/tmp/tmp"
     = Some (mkFile 384 EmptyString).
Proof. repeat split; vm_compute; reflexivity. Qed.

(** The shell reader on a few command lines. *)
Example sh_words_examples :
  sh_words false None "ls -l 'my file' it\'s" = Some ["ls"; "-l"; "my file"; "it's"]
  /\ sh_words false None "a  'b'c" = Some ["a"; "bc"]
  /\ sh_words false None "'unclosed" = None
  /\ sh_words false None (shell_quote "it's a 'test'") = Some ["it's a 'test'"]
  /\ sh_words false None ("echo " +:+ shell_quote EmptyString)
     = Some ["echo"; EmptyString].
Proof. repeat split; vm_compute; reflexivity. Qed.

Example int_reads_pid_file :
  int ("4242" +:+ LF) = Some 4242 /\ int (pretty (-17)) = Some (-17).
Proof. split; vm_compute; reflexivity. Qed.
